(** * kwgen.utils: the cleaning and tokenization pipeline

    A shallow embedding of [src/kwgen/utils.py].  Python strings are
    sequences of Unicode code points; the built-in string methods whose
    meaning is fixed by a few lines of documentation ([str.strip],
    [str.split], [str.replace], [in], [str.translate]) are written out,
    while everything that depends on the Unicode database or on a
    third-party package ([str.lower], [str.isnumeric], [re.sub], emoji,
    stopwordsiso, gensim, spaCy, NLTK, [random]) is a field of the
    environment record [Env] the functions are parameterised by. *)

From Stdlib Require Import ZArith NArith Ascii String SpecFloat.
From Stdlib Require Import DecimalString.
From stdpp Require Import base option list gmap.

Local Open Scope N_scope.

(** ** Python strings *)

(** A [str] is the list of its code points. *)
Abbreviation str := (list N).

(** An ASCII literal as a [str]. *)
Definition py (s : string) : str :=
  map N_of_ascii (list_ascii_of_string s).
Arguments py s%_string.

(** [c.isspace()] for a single code point: the characters CPython's
    [_PyUnicode_IsWhitespace] accepts. *)
Definition isspace (c : N) : bool :=
  ((0x09 <=? c) && (c <=? 0x0D)) || ((0x1C <=? c) && (c <=? 0x20))
  || (c =? 0x85) || (c =? 0xA0) || (c =? 0x1680)
  || ((0x2000 <=? c) && (c <=? 0x200A))
  || (c =? 0x2028) || (c =? 0x2029) || (c =? 0x202F)
  || (c =? 0x205F) || (c =? 0x3000).

Fixpoint drop_while {A} (p : A → bool) (l : list A) : list A :=
  match l with
  | [] => []
  | x :: l' => if p x then drop_while p l' else l
  end.

(** [s.lstrip()], [s.rstrip()] and [s.strip()] without argument. *)
Definition lstrip (s : str) : str := drop_while isspace s.
Definition rstrip (s : str) : str :=
  reverse (drop_while isspace (reverse s)).
Definition strip (s : str) : str := rstrip (lstrip s).

(** [s.startswith(p)], [x in s] for strings and [s.replace(old, new)]:
    the occurrences of [old] are replaced from left to right, without
    overlap; an empty [old] matches before every character and at the
    end. *)
Fixpoint startswith (s p : str) : bool :=
  match p, s with
  | [], _ => true
  | _ :: _, [] => false
  | a :: p', b :: s' => (a =? b) && startswith s' p'
  end.

Fixpoint contains_str (x s : str) : bool :=
  startswith s x ||
  match s with
  | [] => false
  | _ :: s' => contains_str x s'
  end.

Fixpoint replace_from (old new : str) (skip : nat) (s : str) : str :=
  match s with
  | [] => []
  | c :: s' =>
      match skip with
      | S k => replace_from old new k s'
      | O =>
          if startswith s old
          then new ++ replace_from old new (pred (length old)) s'
          else c :: replace_from old new 0 s'
      end
  end.

Definition replace (old new s : str) : str :=
  match old with
  | [] => new ++ flat_map (λ c, c :: new) s
  | _ :: _ => replace_from old new 0 s
  end.

(** [s.translate(str.maketrans("", "", chars))]: the characters of
    [chars] are deleted. *)
Definition delete_chars (chars s : str) : str :=
  filter (λ c, c ∉ chars) s.

(** [string.punctuation]. *)
Definition punctuation : str :=
  py "!" ++ [0x22] ++ py "#$%&'()*+,-./:;<=>?@[\]^_`{|}~".

(** [s.split()] without argument: the maximal runs of characters that
    are not whitespace.  [cur] is the run being read, last character
    first. *)
Fixpoint split_from (cur s : str) : list str :=
  match s with
  | [] => match cur with [] => [] | _ :: _ => [reverse cur] end
  | c :: s' =>
      if isspace c
      then match cur with
           | [] => split_from [] s'
           | _ :: _ => reverse cur :: split_from [] s'
           end
      else split_from (c :: cur) s'
  end.

Definition split (s : str) : list str := split_from [] s.

(** [sep.join(words)]. *)
Fixpoint join (sep : str) (words : list str) : str :=
  match words with
  | [] => []
  | [w] => w
  | w :: ws => w ++ sep ++ join sep ws
  end.

(** ** Python values *)

(** An entry of [responses]. *)
Inductive pyval :=
  | PyStr (s : str)
  | PyNone
  | PyInt (z : Z)
  | PyFloat (f : spec_float)
  | PyList (l : list str).

(** [responses]: one text or a list. *)
Inductive pyresponses :=
  | OneText (s : str)
  | Texts (l : list pyval).

(** [min_freq] and [min_word_len]: [None], a bool or an int. *)
Inductive pyarg :=
  | ArgNone
  | ArgBool (b : bool)
  | ArgInt (z : Z).

(** [sample_size]: an int or a float (binary64). *)
Inductive pynum :=
  | NumInt (z : Z)
  | NumFloat (f : spec_float).

(** An insertion-ordered [dict] with string keys: [d[k] = v] keeps the
    position of a key that is present and appends a new one. *)
Fixpoint dict_set {V} (d : list (str * V)) (k : str) (v : V)
  : list (str * V) :=
  match d with
  | [] => [(k, v)]
  | (k', v') :: d' =>
      if bool_decide (k' = k) then (k, v) :: d'
      else (k', v') :: dict_set d' k v
  end.

Definition dict_lookup {V} (d : list (str * V)) (k : str) : option V :=
  snd <$> (snd <$> list_find (λ kv, kv.1 = k) d).

(** ** The environment *)

(** A spaCy token, as far as the code looks at it. *)
Record Token := { text : str; lemma_ : str; pos_ : str }.

Inductive exn :=
  | TypeError | AttributeError | ValueError | OverflowError
  | IndexError | KeyError | OSError | UnboundLocalError
  | OtherError (name : str).

Inductive result (A : Type) :=
  | Ok (a : A)
  | Raise (e : exn).
Arguments Ok {A} a.
Arguments Raise {A} e.

#[global] Instance result_ret : MRet result := @Ok.
#[global] Instance result_bind : MBind result := λ A B k m,
  match m with
  | Ok a => k a
  | Raise e => Raise e
  end.

Record Env := {
  (** [s.lower()] and [s.isnumeric()], read off the Unicode database. *)
  lower : str → str;
  isnumeric : str → bool;
  (** [re.sub(pattern, repl, s)] for a pattern and a template given as
      ASCII literals. *)
  re_sub : string → string → str → str;
  (** [emoji.get_emoji_regexp().sub("", s)]. *)
  remove_emoji : str → str;
  (** [stopwordsiso.stopwords(lang)], a set. *)
  stopwords : str → list str;
  (** The tables of [kwgen.languages]. *)
  lem_abbr_dict : gmap str str;
  stem_abbr_dict : gmap str str;
  sw_abbr_dict : gmap str str;
  (** [Phrases(sentences, min_count, threshold)[sentence]] of gensim. *)
  Phrases : list (list str) → Z → spec_float → list str → list str;
  (** [spacy.load(name)], before and after the attempt to download the
      model; a loaded pipeline maps a text to its tokens. *)
  spacy_load : str → result (str → list Token);
  spacy_load_after_download : str → result (str → list Token);
  (** [SnowballStemmer.languages] and [SnowballStemmer(lang).stem(word)]
      of NLTK. *)
  snowball_languages : list str;
  snowball_stem : str → str → str;
  (** The j-th value drawn from the random generator. *)
  draws : nat → nat;
}.

Section Utils.

Variable E : Env.

(** ** [_clean_text_strings] *)

Definition _clean_text_strings (s : str) : str :=
  let s := re_sub E "([a-z])([A-Z])" "\1\. \2" s in
  let s := lower E s in
  let s := re_sub E "&gt|&lt" " " s in
  let s := re_sub E "([a-z])\1{2,}" "\1" s in
  let s := re_sub E "([\W+])\1{1,}" "\1" s in
  let s := re_sub E "\*|\W\*|\*\W" ". " s in
  let s := re_sub E "\(.*?\)" ". " s in
  let s := re_sub E "\W+?\." "." s in
  let s := re_sub E "(\.|\?|!)(\w)" "\1 \2" s in
  let s := re_sub E " ing " " " s in
  let s := re_sub E "product received for free[.| ]" " " s in
  let s := re_sub E "(.{2,}?)\1{1,}" "\1" s in
  strip s.

(** ** [_combine_tokens_to_str], on a list of words *)

(** [responses[0]] is read first, so that an empty list raises;
    [ignore_words=None] stands for the empty list. *)
Definition _combine_tokens_to_str (responses ignore_words : list str)
  : result str :=
  match responses with
  | [] => Raise IndexError
  | _ :: _ =>
      let flat_words := filter (λ word, word ∉ ignore_words) responses in
      Ok (join (py " ") flat_words)
  end.

(** ** [clean_and_tokenize_texts], stage by stage *)

(** [x in r] and [r.replace(old, new)] on an entry of [responses]. *)
Definition py_in (x : str) (r : pyval) : result bool :=
  match r with
  | PyStr s => Ok (contains_str x s)
  | PyList l => Ok (bool_decide (x ∈ l))
  | PyNone | PyInt _ | PyFloat _ => Raise TypeError
  end.

Definition py_replace (r : pyval) (old new : str) : result pyval :=
  match r with
  | PyStr s => Ok (PyStr (replace old new s))
  | PyNone | PyInt _ | PyFloat _ | PyList _ => Raise AttributeError
  end.

(** [range(25, 0, -1)]. *)
Definition space_run_lengths : list nat := reverse (seq 1 25).

(** The body of the loop over [i]. *)
Definition collapse_run (r : pyval) (i : nat) : result pyval :=
  let large_space := replicate i 0x20 in
  found ← py_in large_space r;
  if (found : bool) then py_replace r large_space (py " ") else Ok r.

Fixpoint foldM {A B} (f : A → B → result A) (a : A) (l : list B)
  : result A :=
  match l with
  | [] => Ok a
  | x :: l' => a' ← f a x; foldM f a' l'
  end.

Definition remove_large_spaces (r : pyval) : result pyval :=
  foldM collapse_run r space_run_lengths.

(** The second loop; a value that survived [.replace] is a string. *)
Definition remove_random_punctuation (input_language : str) (r : pyval)
  : result str :=
  r ← py_replace r (py "/") (py " ");
  r ← py_replace r (py "-") (py " ");
  r ← (if bool_decide (input_language = py "fr")
       then py_replace r (py "d'") []
       else Ok r);
  match r with
  | PyStr s => Ok s
  | PyNone | PyInt _ | PyFloat _ | PyList _ => Raise AttributeError
  end.

(** [string.punctuation + "–" + "’"]. *)
Definition removed_punctuation : str := punctuation ++ [0x2013] ++ [0x2019].

Definition remove_punctuation (r : str) : str :=
  delete_chars removed_punctuation r.

(** The stop words of the input language. *)
Definition stop_words (input_language : str) : list str :=
  if bool_decide (stopwords E input_language ≠ [])
  then stopwords E input_language
  else match stem_abbr_dict E !! input_language with
       | Some l => stopwords E l
       | None =>
           match sw_abbr_dict E !! input_language with
           | Some l => stopwords E l
           | None => []
           end
       end.

Definition tokenize (stop : list str) (text : str) : list str :=
  filter (λ word, ¬ (word ∈ stop) ∧ isnumeric E word = false)
         (split (lower E text)).

(** Lines 240 to 248: tokenize, then drop the empty token lists. *)
Definition tokenized_texts (input_language : str) (texts : list str)
  : list (list str) :=
  filter (λ t, t ≠ []) (map (tokenize (stop_words input_language)) texts).

(** ["_" in token]. *)
Definition has_underscore (token : str) : bool :=
  contains_str (py "_") token.

(** The inner loop of the bigram step: every token of
    [bigrams[tokens]] with an underscore is inserted at index 0 of
    [tokens]. *)
Definition insert_bigrams (bigrams : list str → list str)
  (tokens : list str) : list str :=
  foldl (λ acc token, if has_underscore token then token :: acc else acc)
        tokens (bigrams tokens).

(** [5.0] and [1.0]. *)
Definition float_5 : spec_float := S754_finite false 5629499534213120 (-50).
Definition float_1 : spec_float := S754_finite false 4503599627370496 (-52).

Definition tokens_with_bigrams (tokenized : list (list str))
  : list (list str) :=
  let bigrams := Phrases E tokenized 3 float_5 in
  map (insert_bigrams bigrams) tokenized.

Definition allowed_pos_tags : list str :=
  [py "NOUN"; py "PROPN"; py "ADJ"; py "ADV"; py "VERB"].

Definition lemmatize (nlp : str → list Token) (tokens : list (list str))
  : result (list (list str)) :=
  mapM (λ tokens,
          combined_tokens ← _combine_tokens_to_str tokens [];
          let lem_tokens := nlp combined_tokens in
          Ok (map lemma_
                (filter (λ token, pos_ token ∈ allowed_pos_tags)
                        lem_tokens)))
       tokens.

(** Lines 283 to 294: the value of [nlp] and, when it was assigned, of
    [lemmatized_tokens] after the two [try] blocks.  The outer handler
    catches [OSError] only, the inner one everything. *)
Definition try_lemmatize (input_language : str)
  (tokens : list (list str))
  : result (option (str → list Token) * option (list (list str))) :=
  let retry (nlp0 : option (str → list Token)) :=
    match spacy_load_after_download E input_language with
    | Ok nlp =>
        match lemmatize nlp tokens with
        | Ok lemmatized => Ok (Some nlp, Some lemmatized)
        | Raise _ => Ok (Some nlp, None)
        end
    | Raise _ => Ok (nlp0, None)
    end in
  match spacy_load E input_language with
  | Ok nlp =>
      match lemmatize nlp tokens with
      | Ok lemmatized => Ok (Some nlp, Some lemmatized)
      | Raise OSError => retry (Some nlp)
      | Raise e => Raise e
      end
  | Raise OSError => retry None
  | Raise e => Raise e
  end.

(** [SnowballStemmer(language)] raises [ValueError] for a language that
    is not in [SnowballStemmer.languages]. *)
Definition SnowballStemmer (language : str) : result (str → str) :=
  if bool_decide (language ∈ snowball_languages E)
  then Ok (snowball_stem E language)
  else Raise ValueError.

(** Lines 297 to 308. *)
Definition select_stemmer (input_language : str)
  : result (option (str → str)) :=
  let make language :=
    stemmer ← SnowballStemmer language; Ok (Some stemmer) in
  if bool_decide (input_language ∈ snowball_languages E)
  then make input_language
  else if bool_decide (input_language = py "ar")
  then make (py "arabic")
  else if bool_decide (input_language = py "fi")
  then make (py "finish")
  else if bool_decide (input_language = py "hu")
  then make (py "hungarian")
  else if bool_decide (input_language = py "sv")
  then make (py "swedish")
  else Ok None.

(** Lines 296 to 319, the branch [nlp == None]. *)
Definition stem_or_pass (input_language : str) (tokens : list (list str))
  : result (list (list str)) :=
  stemmer ← select_stemmer input_language;
  match stemmer with
  | Some stem => Ok (map (map stem) tokens)
  | None => Ok tokens
  end.

(** Lines 283 to 319. *)
Definition lemmatized_tokens (input_language : str)
  (tokens : list (list str)) : result (list (list str)) :=
  '(nlp, lemmatized) ← try_lemmatize input_language tokens;
  match nlp with
  | None => stem_or_pass input_language tokens
  | Some _ =>
      match lemmatized with
      | Some l => Ok l
      | None => Raise UnboundLocalError
      end
  end.

(** The frequency table: for every response, every token of
    [set(tokens)] is counted once.  The order in which Python walks the
    set does not matter for the table. *)
Definition count_response (freq : gmap str nat) (tokens : list str)
  : gmap str nat :=
  foldl (λ freq t, <[t := S (default 0%nat (freq !! t))]> freq)
        freq (remove_dups tokens).

Definition token_frequencies (lemmatized : list (list str))
  : gmap str nat :=
  foldl count_response ∅ lemmatized.

(** [x == None or x == False], and the value [x] compares as. *)
Definition is_none_or_false (x : pyarg) : bool :=
  match x with
  | ArgNone => true
  | ArgBool b => negb b
  | ArgInt z => (z =? 0)%Z
  end.

Definition minimum (x : pyarg) : Z :=
  if is_none_or_false x then 0%Z
  else match x with
       | ArgNone => 0%Z
       | ArgBool b => Z.b2z b
       | ArgInt z => z
       end.

Definition min_len_freq_tokens (min_freq min_word_len : pyarg)
  (lemmatized : list (list str)) : list (list str) :=
  let freq := token_frequencies lemmatized in
  map (filter (λ t,
         (minimum min_word_len ≤ Z.of_nat (length t))%Z
         ∧ (minimum min_freq ≤ Z.of_nat (default 0%nat (freq !! t)))%Z))
      lemmatized.

Definition non_empty_token_indexes (tokens : list (list str)) : list nat :=
  filter (λ i, tokens !! i ≠ Some []) (seq 0 (length tokens)).

(** [l[i]] for a non-negative [i]. *)
Definition index {A} (l : list A) (i : nat) : result A :=
  match l !! i with
  | Some x => Ok x
  | None => Raise IndexError
  end.

(** [_clean_text_strings(s=r)] on an entry of [responses]. *)
Definition clean_entry (r : pyval) : result str :=
  match r with
  | PyStr s => Ok (_clean_text_strings s)
  | PyNone | PyInt _ | PyFloat _ | PyList _ => Raise TypeError
  end.

(** [sample_size != 1]. *)
Definition differs_from_1 (sample_size : pynum) : bool :=
  match sample_size with
  | NumInt z => negb (z =? 1)%Z
  | NumFloat f => negb (SFeqb f float_1)
  end.

(** [float(n)] for an int. *)
Definition float_of_int (n : Z) : result spec_float :=
  match binary_normalize 53 1024 n 0 false with
  | S754_infinity _ => Raise OverflowError
  | f => Ok f
  end.

(** [int(x)] for a float: truncation towards zero. *)
Definition int_of_float (f : spec_float) : result Z :=
  match f with
  | S754_nan => Raise ValueError
  | S754_infinity _ => Raise OverflowError
  | S754_zero _ => Ok 0%Z
  | S754_finite s m e =>
      let a := match e with
               | Z.neg p => (Z.pos m / 2 ^ Z.pos p)%Z
               | _ => (Z.pos m * 2 ^ e)%Z
               end in
      Ok (if s then (- a)%Z else a)
  end.

(** [int(sample_size * n)]. *)
Definition sample_count (sample_size : pynum) (n : nat) : result Z :=
  match sample_size with
  | NumInt z => Ok (z * Z.of_nat n)%Z
  | NumFloat f =>
      g ← float_of_int (Z.of_nat n);
      int_of_float (SFmul 53 1024 f g)
  end.

(** [random.choices(range(n), k=k)]: [k] draws, each an index below
    [n]; no draw for a negative [k]. *)
Definition random_choices (n : nat) (k : Z) : result (list nat) :=
  mapM (λ j, match n with
             | O => Raise IndexError
             | S _ => Ok (draws E j `mod` n)%nat
             end)
       (seq 0 (Z.to_nat k)).

Definition select_idxs (sample_size : pynum) (n : nat)
  : result (list nat) :=
  if differs_from_1 sample_size
  then k ← sample_count sample_size n; random_choices n k
  else Ok (seq 0 n).

Definition responses_list (responses : pyresponses) : list pyval :=
  match responses with
  | OneText s => [PyStr s]
  | Texts l => l
  end.

(** [input_language.lower()], then the abbreviation of the lemmatizer
    when there is one. *)
Definition resolve_language (input_language : option str) : result str :=
  match input_language with
  | None => Raise AttributeError
  | Some l =>
      let l := lower E l in
      Ok (default l (lem_abbr_dict E !! l))
  end.

(** Lines 195 to 248: from the responses to the non-empty token
    lists. *)
Definition tokenize_responses (input_language : str)
  (responses : list pyval) : result (list (list str)) :=
  responses_no_large_spaces ← mapM remove_large_spaces responses;
  responses_no_random_punctuation ←
    mapM (remove_random_punctuation input_language)
         responses_no_large_spaces;
  let responses_no_punctuation :=
    map remove_punctuation responses_no_random_punctuation in
  let responses_no_emojis := map (remove_emoji E) responses_no_punctuation in
  Ok (tokenized_texts input_language responses_no_emojis).

(** Lines 321 to 363: the filter, the surviving indexes, the clean
    texts and the sample. *)
Definition select_corpus (responses : list pyval)
  (min_freq min_word_len : pyarg) (sample_size : pynum)
  (lemmatized : list (list str))
  : result (list (list str) * list str * list nat) :=
  let filtered := min_len_freq_tokens min_freq min_word_len lemmatized in
  let idxs := non_empty_token_indexes filtered in
  text_corpus ← mapM (index filtered) idxs;
  clean_texts ← mapM (λ i, r ← index responses i; clean_entry r) idxs;
  selected_idxs ← select_idxs sample_size (length text_corpus);
  text_corpus ← mapM (index text_corpus) selected_idxs;
  clean_texts ← mapM (index clean_texts) selected_idxs;
  Ok (text_corpus, clean_texts, selected_idxs).

Definition clean_and_tokenize_texts (responses : pyresponses)
  (input_language : option str) (min_freq min_word_len : pyarg)
  (sample_size : pynum)
  : result (list (list str) * list str * list nat) :=
  input_language ← resolve_language input_language;
  let responses := responses_list responses in
  tokenized ← tokenize_responses input_language responses;
  let with_bigrams := tokens_with_bigrams tokenized in
  lemmatized ← lemmatized_tokens input_language with_bigrams;
  select_corpus responses min_freq min_word_len sample_size lemmatized.

(** What the first four loops make of a response that is a string. *)
Definition collapse_spaces (s : str) : str :=
  foldl (λ r i, let large_space := replicate i 0x20 in
                if contains_str large_space r
                then replace large_space (py " ") r else r)
        s space_run_lengths.

Definition separate_words (input_language : str) (s : str) : str :=
  let r := replace (py "/") (py " ") s in
  let r := replace (py "-") (py " ") r in
  if bool_decide (input_language = py "fr")
  then replace (py "d'") [] r else r.

Definition prepare_text (input_language : str) (s : str) : str :=
  remove_emoji E
    (remove_punctuation
       (separate_words input_language (collapse_spaces s))).

Definition is_str (r : pyval) : bool :=
  match r with
  | PyStr _ => true
  | PyNone | PyInt _ | PyFloat _ | PyList _ => false
  end.

(** ** [_order_by_pos] *)

(** The buckets hold the first spaCy token of a keyword for the four
    parts of speech and the keyword itself for the others. *)
Inductive pyitem :=
  | ItemToken (t : Token)
  | ItemStr (s : str).

Inductive pyoutputs :=
  | OutputsDict (d : list (str * list pyitem))
  | OutputsList (l : list str).

Definition pos_order : list str :=
  [py "NOUN"; py "PROPN"; py "ADJ"; py "ADV"; py "VERB"].

(** The body of the loop that fills [outputs_dict]. *)
Definition fill_bucket (ordered_outputs : list (list pyitem))
  (outputs_dict : list (str * list pyitem)) (i : nat)
  : result (list (str * list pyitem)) :=
  d ← (if bool_decide (i = 0%nat)
       then v ← index ordered_outputs i;
            Ok (dict_set outputs_dict (py "Nouns:") v)
       else Ok outputs_dict);
  d ← (if bool_decide (i = 1%nat)
       then match dict_lookup d (py "Nouns:") with
            | Some nouns =>
                v ← index ordered_outputs i;
                Ok (dict_set d (py "Nouns:") (nouns ++ v))
            | None => Raise KeyError
            end
       else Ok d);
  d ← (if bool_decide (i = 2%nat)
       then v ← index ordered_outputs i;
            Ok (dict_set d (py "Adjectives:") v)
       else Ok d);
  d ← (if bool_decide (i = 3%nat)
       then v ← index ordered_outputs i;
            Ok (dict_set d (py "Adverbs:") v)
       else Ok d);
  d ← (if bool_decide (i = 4%nat)
       then v ← index ordered_outputs i;
            Ok (dict_set d (py "Verbs:") v)
       else Ok d);
  if bool_decide (i = 5%nat)
  then v ← index ordered_outputs i;
       Ok (dict_set d (py "Other:") v)
  else Ok d.

Definition _order_by_pos (outputs : list str) (output_language : str)
  : result pyoutputs :=
  let output_language :=
    default output_language (lem_abbr_dict E !! output_language) in
  if bool_decide (output_language ∈ (map_to_list (lem_abbr_dict E)).*2)
  then
    nlp ← spacy_load E output_language;
    nlp_outputs ← mapM (λ o, index (nlp o) 0) outputs;
    let ordered_outputs :=
      map (λ p, filter (λ o, pos_ o = p) nlp_outputs) pos_order in
    let flat_ordered_outputs := map text (concat ordered_outputs) in
    let other := filter (λ o, o ∉ flat_ordered_outputs) outputs in
    let ordered_outputs :=
      map (map ItemToken) ordered_outputs ++ [map ItemStr other] in
    outputs_dict ←
      foldM (fill_bucket ordered_outputs) []
            (seq 0 (length ordered_outputs));
    Ok (OutputsDict (filter (λ kv, kv.2 ≠ []) outputs_dict))
  else Ok (OutputsList outputs).

End Utils.

(** ** The count the specification gives for the sample *)



(** ** A small environment to run the functions in *)

Module Example.

(** Lower case and numeric strings, on ASCII. *)
Definition ascii_lower (s : str) : str :=
  map (λ c, if (0x41 <=? c) && (c <=? 0x5A) then c + 32 else c) s.

Definition ascii_isnumeric (s : str) : bool :=
  match s with
  | [] => false
  | _ :: _ => forallb (λ c, (0x30 <=? c) && (c <=? 0x39)) s
  end.

(** A tagger with a six-word lexicon; the lemma is the word. *)
Definition tag (w : str) : str :=
  if bool_decide (w ∈ [py "customer"; py "service"; py "movie"])
  then py "NOUN"
  else if bool_decide (w = py "happy") then py "ADJ"
  else if bool_decide (w = py "quickly") then py "ADV"
  else if bool_decide (w = py "hello") then py "INTJ"
  else py "X".

Definition nlp (s : str) : list Token :=
  map (λ w, {| text := w; lemma_ := w; pos_ := tag w |}) (split s).

(** A phrase model that knows the bigram [customer service]. *)
Fixpoint merge_customer_service (sentence : list str) : list str :=
  match sentence with
  | a :: (b :: rest) as tail =>
      if bool_decide (a = py "customer" ∧ b = py "service")
      then py "customer_service" :: merge_customer_service rest
      else a :: merge_customer_service tail
  | _ => sentence
  end.

(** [SnowballStemmer.languages] of NLTK. *)
Definition nltk_languages : list str :=
  [py "arabic"; py "danish"; py "dutch"; py "english"; py "finnish";
   py "french"; py "german"; py "hungarian"; py "italian";
   py "norwegian"; py "porter"; py "portuguese"; py "romanian";
   py "russian"; py "spanish"; py "swedish"].

Definition load (name : str) : result (str → list Token) :=
  if bool_decide (name = py "en") then Ok nlp else Raise OSError.

(** The environment, for a given regular expression engine; in [env]
    the engine leaves every string as it is, as [re.sub] does with a
    string in which the pattern does not match. *)
Definition env_with (re : string → string → str → str) : Env := {|
  lower := ascii_lower;
  isnumeric := ascii_isnumeric;
  re_sub := re;
  remove_emoji := λ s, s;
  stopwords := λ l, if bool_decide (l = py "en")
                    then [py "the"; py "a"; py "is"] else [];
  lem_abbr_dict :=
    list_to_map [(py "english", py "en"); (py "french", py "fr")];
  stem_abbr_dict :=
    list_to_map [(py "arabic", py "ar"); (py "finnish", py "fi");
                 (py "hungarian", py "hu"); (py "swedish", py "sv")];
  sw_abbr_dict := ∅;
  Phrases := λ _ _ _, merge_customer_service;
  spacy_load := load;
  spacy_load_after_download := load;
  snowball_languages := nltk_languages;
  snowball_stem := λ _ w, w;
  draws := λ j, j;
|}.

Definition env : Env := env_with (λ _ _ s, s).


End Example.

(** ** The other functions of the module *)

(** *** [_combine_tokens_to_str] on all its arguments *)

(** [responses] is a string, a list of words or a list of lists of
    words; [ignore_words] is [None], a string or a list. *)
Inductive pytokens :=
  | TokensStr (s : str)
  | TokensWords (l : list str)
  | TokensNested (l : list (list str)).

Inductive pyignore :=
  | IgnoreNone
  | IgnoreStr (s : str)
  | IgnoreList (l : list str).

(** The characters of a string, as a loop over the string sees them. *)
Definition chars (s : str) : list str := map (λ c, [c]) s.

Definition combine_tokens_to_str (responses : pytokens)
  (ignore_words : pyignore) : result str :=
  flat_words ←
    match responses with
    | TokensStr [] | TokensWords [] | TokensNested [] => Raise IndexError
    | TokensNested l => Ok (concat l)
    | TokensWords l => Ok l
    | TokensStr s => Ok (chars s)
    end;
  let ignore_words :=
    match ignore_words with
    | IgnoreStr s => [s]
    | IgnoreNone => []
    | IgnoreList l => l
    end in
  let flat_words := filter (λ word, word ∉ ignore_words) flat_words in
  Ok (join (py " ") flat_words).

(** *** Data frames *)

(** A cell of a frame: a string, a missing value or a number. *)
Inductive cell :=
  | CellStr (s : str)
  | CellNaN
  | CellNumber (z : Z).

(** A frame with the index [0 .. n_rows - 1]: its columns in order,
    each with its label and its values. *)
Record DataFrame := { n_rows : nat; table : list (str * list cell) }.

(** [df.loc[i, c]], for a label that names one column. *)
Definition loc (df : DataFrame) (i : nat) (c : str) : result cell :=
  match dict_lookup (table df) c with
  | None => Raise KeyError
  | Some values =>
      match values !! i with
      | Some v => Ok v
      | None => Raise KeyError
      end
  end.

(** What the module reads and calls outside of itself:
    [pd.read_excel], [pd.read_csv] and
    [Translator().translate(text, src, dest).text]. *)
Record Services := {
  read_excel : str → result DataFrame;
  read_csv : str → result DataFrame;
  translate : str → str → str → result str;
}.

(** *** [load_data] *)

Inductive pydata :=
  | DataPath (path : str)
  | DataFrameArg (df : DataFrame).

(** The variable [df_responses] after the first [if]. *)
Inductive df_responses_value :=
  | Unbound
  | BoundStr (s : str)
  | BoundFrame (df : DataFrame).

(** [s[-k:]]. *)
Definition last_chars (k : nat) (s : str) : str := drop (length s - k) s.

Definition read_data (svc : Services) (data : pydata)
  : result df_responses_value :=
  match data with
  | DataPath path =>
      if bool_decide (last_chars 4 path = py "xlsx")
      then df ← read_excel svc path; Ok (BoundFrame df)
      else if bool_decide (last_chars 3 path = py "csv")
      then df ← read_csv svc path; Ok (BoundFrame df)
      else Ok (BoundStr path)
  | DataFrameArg _ => Ok Unbound
  end.

Definition column_names : list str :=
  [py "user_id"; py "val_benefit"; py "unval_benefit"; py "val_personal";
   py "unval_personal"; py "most_important"; py "mission_description";
   py "higher_purpose"; py "expensive_ok"; py "expensive_not_ok";
   py "bargain_ok"; py "bargain_not_ok"; py "likelihood_expensive";
   py "likelihood_bargain"; py "contact_duraction"; py "start_time";
   py "submit_time"; py "network_id"].

(** ["extra_col_{}".format(extra_index)]. *)
Definition extra_col (extra_index : nat) : str :=
  py "extra_col_" ++ py (NilEmpty.string_of_uint (Nat.to_uint extra_index)).

(** The [while] loop, which runs once for each name that is missing. *)
Fixpoint add_extra_names (missing : nat) (names : list str)
  (extra_index : nat) : list str :=
  match missing with
  | O => names
  | S m => add_extra_names m (names ++ [extra_col extra_index])
                           (S extra_index)
  end.

Definition names_for (n_columns : nat) : list str :=
  add_extra_names (n_columns - length column_names) column_names 0.

(** [df.columns = names]. *)
Definition set_columns (df : DataFrame) (names : list str)
  : result DataFrame :=
  if bool_decide (length names = length (table df))
  then Ok {| n_rows := n_rows df; table := zip names (table df).*2 |}
  else Raise ValueError.

Definition is_null (c : cell) : bool :=
  match c with
  | CellNaN => true
  | CellStr _ | CellNumber _ => false
  end.

(** [df.drop(col, axis=1, inplace=True)]. *)
Definition drop_column (df : DataFrame) (col : str) : result DataFrame :=
  if bool_decide (col ∈ (table df).*1)
  then Ok {| n_rows := n_rows df;
             table := filter (λ kv, kv.1 ≠ col) (table df) |}
  else Raise KeyError.

(** The body of the loop over the columns, for a label with ["other"]
    in it: the strings of the column go to the column before it (to the
    last one from the first column), and the column is dropped. *)
Definition merge_other (df : DataFrame) (col : str) : result DataFrame :=
  match list_find (λ kv, kv.1 = col) (table df) with
  | None => Raise KeyError
  | Some (col_idx, (_, values)) =>
      if forallb is_null values then drop_column df col
      else
        let target := match col_idx with
                      | O => pred (length (table df))
                      | S i => i
                      end in
        let merged :=
          alter (λ kv, (kv.1, zip_with (λ v old, match v with
                                                 | CellStr _ => v
                                                 | _ => old
                                                 end)
                                       values kv.2))
                target (table df) in
        drop_column {| n_rows := n_rows df; table := merged |} col
  end.

Definition merge_step (df : DataFrame) (col : str) : result DataFrame :=
  if contains_str (py "other") col then merge_other df col else Ok df.

Definition load_data (svc : Services) (data : pydata) : result DataFrame :=
  df_responses ← read_data svc data;
  match df_responses with
  | Unbound => Raise UnboundLocalError
  | BoundStr _ => Raise AttributeError
  | BoundFrame df =>
      df ← set_columns df (names_for (length (table df)));
      foldM merge_step df (table df).*1
  end.

(** *** [prepare_data] *)

Definition included_cols (incl_mc_questions : bool) : list str :=
  if incl_mc_questions
  then [py "val_benefit"; py "val_personal"; py "most_important";
        py "mission_description"; py "higher_purpose"]
  else [py "most_important"; py "mission_description";
        py "higher_purpose"].

(** The body of the loop over the index: the text of one row. *)
Definition row_text (df : DataFrame) (cols : list str) (i : nat)
  : result str :=
  text ← foldM (λ text c,
                  v ← loc df i c;
                  match v with
                  | CellStr s => Ok (text ++ py " " ++ s)
                  | CellNaN | CellNumber _ => Ok text
                  end)
               [] cols;
  Ok (drop 1 text).

Definition prepare_data (E : Env) (svc : Services) (data : pydata)
  (input_language : option str) (incl_mc_questions : bool)
  (min_freq min_word_len : pyarg) (sample_size : pynum)
  : result (list (list str) * list str * list nat) :=
  input_language ← resolve_language E input_language;
  df_responses ← load_data svc data;
  raw_texts ← mapM (row_text df_responses (included_cols incl_mc_questions))
                   (seq 0 (n_rows df_responses));
  clean_and_tokenize_texts E (Texts (map PyStr raw_texts))
    (Some input_language) min_freq min_word_len sample_size.

(** *** [_prepare_corpus_path] *)

Inductive pycorpus :=
  | CorpusPath (path : str)
  | CorpusTokens (l : list (list str)).

(** The entries of [text_corpus] as the last comprehension sees them. *)
Definition corpus_items (text_corpus : pycorpus) : list pytokens :=
  match text_corpus with
  | CorpusPath path => map TokensStr (chars path)
  | CorpusTokens l => map TokensWords l
  end.

Definition _prepare_corpus_path (E : Env) (svc : Services)
  (text_corpus : pycorpus) (clean_texts : option (list str))
  (input_language : option str) (incl_mc_questions : bool)
  (min_freq min_word_len : pyarg) (sample_size : pynum)
  : result (pycorpus * list str) :=
  let otherwise :=
    match clean_texts with
    | Some clean_texts => Ok (text_corpus, clean_texts)
    | None =>
        clean_texts ←
          mapM (λ t_c, s ← combine_tokens_to_str t_c IgnoreNone;
                       Ok (_clean_text_strings E s))
               (corpus_items text_corpus);
        Ok (text_corpus, clean_texts)
    end in
  match text_corpus with
  | CorpusPath path =>
      match prepare_data E svc (DataPath path) input_language
              incl_mc_questions min_freq min_word_len sample_size with
      | Ok (text_corpus, clean_texts, _) =>
          Ok (CorpusTokens text_corpus, clean_texts)
      | Raise _ => otherwise
      end
  | CorpusTokens _ => otherwise
  end.

(** *** [translate_output] *)

(** An entry of [outputs]: a string or a list of strings. *)
Inductive pyoutput :=
  | OutputStr (s : str)
  | OutputList (l : list str).

Definition translate_output (svc : Services) (outputs : list pyoutput)
  (input_language output_language : str) : result (list pyoutput) :=
  match outputs with
  | [] => Raise IndexError
  | OutputList _ :: _ =>
      mapM (λ sub_output,
              let items := match sub_output with
                           | OutputList l => l
                           | OutputStr s => chars s
                           end in
              l ← mapM (λ o, translate svc o input_language output_language)
                       items;
              Ok (OutputList l))
           outputs
  | OutputStr _ :: _ =>
      mapM (λ o, match o with
                 | OutputStr s =>
                     t ← translate svc s input_language output_language;
                     Ok (OutputStr t)
                 | OutputList _ => Raise AttributeError
                 end)
           outputs
  end.

(** *** [prompt_for_ignore_words] *)

(** [s.split(sep)] for a separator of one character. *)
Fixpoint split_at (sep : N) (cur s : str) : list str :=
  match s with
  | [] => [reverse cur]
  | c :: s' =>
      if c =? sep then reverse cur :: split_at sep [] s'
      else split_at sep (c :: cur) s'
  end.

(** The words of an answer: commas and apostrophes go, a blank
    separates. *)
Definition words_to_ignore (answer : str) : list str :=
  let new_words_to_ignore :=
    filter (λ char, char ≠ 0x2C ∧ char ≠ 0x27) answer in
  if contains_str (py " ") new_words_to_ignore
  then split_at 0x20 [] new_words_to_ignore
  else [new_words_to_ignore].

(** The local variables when the loop ends, the lines that were
    printed and the answers that were not read.  The function has no
    [return]: its value is [None]. *)
Record prompt_state := {
  ignore_words : list str;
  words_added : bool;
  printed : list str;
  unread : list str;
}.

(** [input] raises [EOFError] when there is no answer left. *)
Definition EOFError : exn := OtherError (py "EOFError").

(** The loop; [answers] is what [input] returns, call after call. *)
Fixpoint prompt_loop (answers : list str) (ignore : list str)
  (out : list str) : result prompt_state :=
  match answers with
  | [] => Raise EOFError
  | more_words :: answers' =>
      if bool_decide (more_words = py "y")
      then match answers' with
           | [] => Raise EOFError
           | new_words :: answers'' =>
               Ok {| ignore_words := ignore ++ words_to_ignore new_words;
                      words_added := true;
                      printed := out;
                      unread := answers'' |}
           end
      else if bool_decide (more_words = py "n")
      then Ok {| ignore_words := ignore; words_added := false;
                  printed := out; unread := answers' |}
      else prompt_loop answers' ignore (out ++ [py "Invalid input"])
  end.

Definition prompt_for_ignore_words (ignore : option (list str))
  (answers : list str) : result prompt_state :=
  let ignore := default [] ignore in
  let ignore := map (replace (py "'") []) ignore in
  prompt_loop answers ignore [].

(** *** A small data set to run the functions on *)

Module ExampleData.

(** Two respondents and [n] columns; the answers are in the columns 5,
    6 and 7. *)
Definition frame (n : nat) : DataFrame :=
  {| n_rows := 2;
     table :=
       map (λ i, (py "Unnamed",
                  [if bool_decide (i = 5%nat) then CellStr (py "good movie")
                   else CellNaN;
                   if bool_decide (i = 6%nat)
                   then CellStr (py "happy customer")
                   else if bool_decide (i = 7%nat) then CellStr (py "great")
                   else CellNumber 3]))
           (seq 0 n) |}.

(** One file with 20 columns, one with 3; a translator that appends an
    exclamation mark. *)
Definition services : Services :=
  {| read_excel := λ _, Raise OSError;
     read_csv := λ path,
       if bool_decide (path = py "data.csv") then Ok (frame 20)
       else if bool_decide (path = py "few.csv") then Ok (frame 3)
       else Raise OSError;
     translate := λ text _ _, Ok (text ++ py "!") |}.

End ExampleData.

(** ** Notions the statements use *)

(** The number of responses that contain [t]. *)
Definition document_frequency (responses : list (list str)) (t : str) : nat :=
  length (filter (λ tokens, t ∈ tokens) responses).

(** The two exceptions a response that is not a string can raise. *)
Definition type_or_attribute_error (e : exn) : Prop :=
  e = TypeError ∨ e = AttributeError.

(** The keys of the mapping [_order_by_pos] returns, in their order. *)
Definition key_order : list str :=
  [py "Nouns:"; py "Adjectives:"; py "Adverbs:"; py "Verbs:"; py "Other:"].

(** The strings in the row [i] of the columns [cols], in their order. *)
Definition row_strings (df : DataFrame) (cols : list str) (i : nat)
  : list str :=
  omap (λ c, match dict_lookup (table df) c ≫= (λ values, values !! i) with
             | Some (CellStr s) => Some s
             | _ => None
             end)
       cols.

(** An entry of the translation has the shape of the entry it comes
    from; a string among lists is translated character by character. *)
Definition same_shape (o o' : pyoutput) : Prop :=
  match o, o' with
  | OutputStr _, OutputStr _ => True
  | OutputList l, OutputList l' => length l' = length l
  | OutputStr s, OutputList l' => length l' = length s
  | OutputList _, OutputStr _ => False
  end.

(** The frame [load_data] makes of the frame it read. *)
Definition renamed (df : DataFrame) : DataFrame :=
  {| n_rows := n_rows df;
     table := zip (column_names
                   ++ map extra_col
                        (seq 0 (length (table df) - length column_names)))
                  (table df).*2 |}.

(** ** Facts about [strip] *)

Lemma drop_while_head {A} (p : A → bool) l x :
  head (drop_while p l) = Some x → p x = false.
Proof.
  induction l as [|y l IH]; simpl; [done|].
  destruct (p y) eqn:Hy; [done|].
  simpl. intros [= ->]. done.
Qed.

Lemma drop_while_snoc {A} (p : A → bool) l x :
  p x = false → ∃ k, drop_while p (l ++ [x]) = k ++ [x].
Proof.
  intros Hx. induction l as [|y l IH]; simpl.
  - rewrite Hx. by exists [].
  - destruct (p y); [done|]. by exists (y :: l).
Qed.

Lemma lstrip_head s c : head (lstrip s) = Some c → isspace c = false.
Proof. apply drop_while_head. Qed.

Lemma rstrip_last s c : last (rstrip s) = Some c → isspace c = false.
Proof.
  unfold rstrip. rewrite last_reverse. apply drop_while_head.
Qed.

(** Stripping on the right keeps the first character of a string that
    does not start with whitespace. *)
Lemma rstrip_head s c :
  (∀ d, head s = Some d → isspace d = false) →
  head (rstrip s) = Some c → isspace c = false.
Proof.
  intros Hs. unfold rstrip.
  destruct s as [|d s]; [done|].
  assert (Hd : isspace d = false) by (by apply Hs).
  rewrite reverse_cons.
  destruct (drop_while_snoc isspace (reverse s) d Hd) as [k ->].
  rewrite reverse_snoc. simpl. by intros [= <-].
Qed.

Lemma strip_head s c : head (strip s) = Some c → isspace c = false.
Proof. apply rstrip_head. intros d. apply lstrip_head. Qed.

Lemma strip_last s c : last (strip s) = Some c → isspace c = false.
Proof. apply rstrip_last. Qed.


(** C4: for every string, the empty one included, [_clean_text_strings]
    returns a string (the embedding is a total function: no step of it
    can raise on a string) that neither starts nor ends with a
    whitespace character. *)
Theorem clean_text_strings_no_outer_whitespace (E : Env) (s : str) :
  (∀ c, head (_clean_text_strings E s) = Some c → isspace c = false)
  ∧ (∀ c, last (_clean_text_strings E s) = Some c → isspace c = false).
Proof.
  split; intros c; unfold _clean_text_strings.
  - apply strip_head.
  - apply strip_last.
Qed.

(** ** The result monad *)

Lemma bind_Ok {A B} (m : result A) (k : A → result B) b :
  m ≫= k = Ok b ↔ ∃ a, m = Ok a ∧ k a = Ok b.
Proof.
  destruct m as [a|e]; simpl; split.
  - intros H. by exists a.
  - by intros (a' & [= ->] & H).
  - done.
  - by intros (a' & [=] & _).
Qed.

Lemma mapM_Ok_length {A B} (f : A → result B) l l' :
  mapM f l = Ok l' → length l' = length l.
Proof.
  revert l'. induction l as [|x l IH]; intros l'; simpl.
  - by intros [= <-].
  - intros (y & Hy & (ys & Hys & [= <-])%bind_Ok)%bind_Ok.
    simpl. f_equal. by apply IH.
Qed.

Lemma mapM_Ok_Forall {A B} (f : A → result B) (g : A → B) l :
  Forall (λ x, f x = Ok (g x)) l → mapM f l = Ok (map g l).
Proof.
  induction 1 as [|x l Hx _ IH]; simpl; [done|].
  rewrite Hx. simpl. rewrite IH. done.
Qed.

Lemma index_middle {A} (k l : list A) x :
  index (k ++ x :: l) (length k) = Ok x.
Proof. unfold index. by rewrite list_lookup_middle. Qed.

(** Reading the positions of a list in order gives the list back. *)
Lemma mapM_index_seq {A} (l k : list A) :
  mapM (index (k ++ l)) (seq (length k) (length l)) = Ok l.
Proof.
  revert k. induction l as [|x l IH]; intros k; [done|].
  cbn [length seq mapM]. rewrite index_middle.
  specialize (IH (k ++ [x])).
  rewrite length_app, <-app_assoc in IH. cbn [length app] in IH.
  rewrite Nat.add_1_r in IH. simpl. rewrite IH. done.
Qed.

Lemma mapM_index_all {A} (l : list A) :
  mapM (index l) (seq 0 (length l)) = Ok l.
Proof. apply (mapM_index_seq l []). Qed.

(** ** The frequency table *)

Section Frequencies.

Variable E : Env.

Lemma count_tokens_lookup (l : list str) (freq : gmap str nat) t :
  NoDup l →
  default 0%nat
    (foldl (λ freq t, <[t := S (default 0%nat (freq !! t))]> freq) freq l
       !! t)
  = (default 0%nat (freq !! t) + if decide (t ∈ l) then 1 else 0)%nat.
Proof.
  intros Hl. revert freq.
  induction Hl as [|x l Hx Hl IH]; intros freq; cbn [foldl].
  - rewrite decide_False by apply not_elem_of_nil. lia.
  - rewrite IH. destruct (decide (t = x)) as [->|Hne].
    + rewrite lookup_insert_eq. cbn [default].
      rewrite (decide_False (P := x ∈ l)) by done.
      rewrite (decide_True (P := x ∈ x :: l)) by apply list_elem_of_here.
      unfold id. lia.
    + rewrite lookup_insert_ne by done.
      destruct (decide (t ∈ l)).
      * rewrite (decide_True (P := t ∈ x :: l))
          by (by apply list_elem_of_further).
        done.
      * rewrite (decide_False (P := t ∈ x :: l))
          by (rewrite elem_of_cons; tauto).
        done.
Qed.

Lemma count_response_lookup freq tokens t :
  default 0%nat (count_response freq tokens !! t)
  = (default 0%nat (freq !! t) + if decide (t ∈ tokens) then 1 else 0)%nat.
Proof.
  unfold count_response.
  rewrite count_tokens_lookup by apply NoDup_remove_dups.
  destruct (decide (t ∈ tokens)).
  - rewrite decide_True; [done|]. by apply elem_of_remove_dups.
  - rewrite decide_False; [done|]. by rewrite elem_of_remove_dups.
Qed.

Lemma foldl_count_response_lookup responses freq t :
  default 0%nat (foldl count_response freq responses !! t)
  = (default 0%nat (freq !! t) + document_frequency responses t)%nat.
Proof.
  revert freq. unfold document_frequency.
  induction responses as [|tokens responses IH]; intros freq; simpl.
  - lia.
  - rewrite IH, count_response_lookup, filter_cons.
    destruct (decide (t ∈ tokens)); simpl; lia.
Qed.

Lemma token_frequencies_lookup responses t :
  default 0%nat (token_frequencies responses !! t)
  = document_frequency responses t.
Proof.
  unfold token_frequencies.
  rewrite foldl_count_response_lookup, lookup_empty. done.
Qed.

End Frequencies.

(** C7: the frequency table gives every token the number of responses
    that contain it (not the number of its occurrences); the filter
    keeps, in every response and in order, exactly the tokens whose
    length is at least [min_word_len] and whose document frequency is at
    least [min_freq]; a [None], [False] or [0] minimum counts as 0. *)
Theorem frequency_length_filter (min_freq min_word_len : pyarg)
  (lemmatized : list (list str)) :
  (∀ t, default 0%nat (token_frequencies lemmatized !! t)
        = document_frequency lemmatized t)
  ∧ min_len_freq_tokens min_freq min_word_len lemmatized
    = map (filter (λ t,
             (minimum min_word_len ≤ Z.of_nat (length t))%Z
             ∧ (minimum min_freq
                ≤ Z.of_nat (document_frequency lemmatized t))%Z))
          lemmatized
  ∧ minimum ArgNone = 0%Z ∧ minimum (ArgBool false) = 0%Z
  ∧ minimum (ArgInt 0) = 0%Z
  ∧ (∀ z, minimum (ArgInt z) = z).
Proof.
  split; [apply token_frequencies_lookup|].
  split; [|repeat split; intros z; unfold minimum; simpl;
           destruct (Z.eqb_spec z 0); congruence].
  unfold min_len_freq_tokens. apply map_ext. intros tokens.
  apply list_filter_iff. intros t.
  by rewrite token_frequencies_lookup.
Qed.

(** ** The bigram step *)

Lemma insert_bigrams_spec (bigrams : list str → list str) tokens :
  insert_bigrams bigrams tokens
  = reverse (filter (λ t, has_underscore t = true) (bigrams tokens))
    ++ tokens.
Proof.
  unfold insert_bigrams. generalize (bigrams tokens) as l.
  intros l. revert tokens.
  induction l as [|t l IH]; intros tokens; [done|].
  cbn [foldl]. rewrite IH, filter_cons.
  destruct (has_underscore t) eqn:Ht.
  - rewrite decide_True by done.
    rewrite reverse_cons, <-app_assoc. done.
  - rewrite decide_False by done. done.
Qed.

Lemma insert_bigrams_nonempty bigrams tokens :
  tokens ≠ [] → insert_bigrams bigrams tokens ≠ [].
Proof.
  rewrite insert_bigrams_spec. intros H [_ ?]%app_eq_nil. done.
Qed.

(** C8: in every response, a token of the phrase model's output that
    contains an underscore (a detected bigram; the model is built with
    [min_count=3] and [threshold=5.0]) is put in front of the response's
    token list, and the original tokens, the two words of the bigram
    among them, all follow in their order. *)
Theorem bigram_inserted_at_front (E : Env) (tokenized : list (list str))
  (i : nat) (tokens : list str) (bigram : str) :
  tokenized !! i = Some tokens →
  bigram ∈ Phrases E tokenized 3 float_5 tokens →
  has_underscore bigram = true →
  ∃ front,
    tokens_with_bigrams E tokenized !! i = Some (front ++ tokens)
    ∧ bigram ∈ front
    ∧ Forall (λ t, has_underscore t = true) front.
Proof.
  intros Hi Hin Hus.
  exists (reverse (filter (λ t, has_underscore t = true)
                     (Phrases E tokenized 3 float_5 tokens))).
  split; [|split].
  - unfold tokens_with_bigrams.
    rewrite list_lookup_fmap, Hi. simpl.
    by rewrite insert_bigrams_spec.
  - apply elem_of_reverse, list_elem_of_filter. done.
  - apply Forall_forall. intros t Ht.
    apply elem_of_reverse, list_elem_of_filter in Ht. tauto.
Qed.

Lemma bigram_inserted_at_front_witness :
  ∃ front,
    tokens_with_bigrams Example.env
        [[py "good"; py "customer"; py "service"]] !! 0%nat
    = Some (front ++ [py "good"; py "customer"; py "service"])
    ∧ py "customer_service" ∈ front
    ∧ Forall (λ t, has_underscore t = true) front.
Proof.
  apply (bigram_inserted_at_front Example.env
           [[py "good"; py "customer"; py "service"]] 0
           [py "good"; py "customer"; py "service"]
           (py "customer_service")).
  - reflexivity.
  - vm_compute. apply list_elem_of_further, list_elem_of_here.
  - reflexivity.
Defined.

(** ** Responses that are strings *)

Section Strings.

Variable E : Env.

Lemma collapse_run_str s i :
  collapse_run (PyStr s) i
  = Ok (PyStr (if contains_str (replicate i 0x20) s
               then replace (replicate i 0x20) (py " ") s else s)).
Proof.
  unfold collapse_run. simpl.
  by destruct (contains_str (replicate i 32) s).
Qed.

Lemma foldM_collapse_run_str s l :
  foldM collapse_run (PyStr s) l
  = Ok (PyStr (foldl (λ r i, let large_space := replicate i 0x20 in
                             if contains_str large_space r
                             then replace large_space (py " ") r else r)
                     s l)).
Proof.
  revert s. induction l as [|i l IH]; intros s; [done|].
  cbn [foldM foldl]. rewrite collapse_run_str.
  cbn [mbind result_bind]. apply IH.
Qed.

Lemma remove_large_spaces_str s :
  remove_large_spaces (PyStr s) = Ok (PyStr (collapse_spaces s)).
Proof. apply foldM_collapse_run_str. Qed.

Lemma remove_random_punctuation_str lang s :
  remove_random_punctuation lang (PyStr s) = Ok (separate_words lang s).
Proof.
  unfold remove_random_punctuation, separate_words. simpl.
  destruct (bool_decide (lang = py "fr")); done.
Qed.

Lemma tokenize_responses_str lang (texts : list str) :
  tokenize_responses E lang (map PyStr texts)
  = Ok (tokenized_texts E lang (map (prepare_text E lang) texts)).
Proof.
  unfold tokenize_responses.
  rewrite (mapM_Ok_Forall _ (λ r, match r with
                                  | PyStr s => PyStr (collapse_spaces s)
                                  | _ => r
                                  end)).
  2:{ apply Forall_forall. intros r (s & -> & _)%list_elem_of_fmap.
      apply remove_large_spaces_str. }
  simpl.
  rewrite (mapM_Ok_Forall _ (λ r, match r with
                                  | PyStr s => separate_words lang s
                                  | _ => []
                                  end)).
  2:{ apply Forall_forall.
      intros r (r' & -> & (s & -> & _)%list_elem_of_fmap)%list_elem_of_fmap.
      apply remove_random_punctuation_str. }
  simpl. do 2 f_equal.
  rewrite !map_map. done.
Qed.

End Strings.

(** C1, at the responses [["", "good movie"]]: the first response has
    no token and is dropped at line 248; the only entry of the corpus
    then holds the tokens of the second response, at index 0, and the
    clean text paired with it is the normalisation of [responses[0]],
    the empty first response, not of the second one. *)
Theorem clean_text_of_shifted_index (re : string → string → str → str) :
  clean_and_tokenize_texts (Example.env_with re)
    (Texts [PyStr []; PyStr (py "good movie")])
    (Some (py "Klingon")) (ArgInt 0) (ArgInt 0) (NumInt 1)
  = Ok ([[py "good"; py "movie"]],
        [_clean_text_strings (Example.env_with re) []],
        [0%nat]).
Proof. vm_compute. reflexivity. Qed.

(** C3, at the language ["fi"]: when spaCy has no model of that name,
    also after the download, the branch for the abbreviation asks NLTK
    for the language ["finish"], which no list of Snowball languages
    holds, and the call raises [ValueError]. *)
Theorem finnish_abbreviation_raises (E : Env) (texts : list str)
  (min_freq min_word_len : pyarg) (sample_size : pynum) (e : exn) :
  lower E (py "fi") = py "fi" →
  lem_abbr_dict E !! py "fi" = None →
  spacy_load E (py "fi") = Raise OSError →
  spacy_load_after_download E (py "fi") = Raise e →
  py "fi" ∉ snowball_languages E →
  py "finish" ∉ snowball_languages E →
  clean_and_tokenize_texts E (Texts (map PyStr texts)) (Some (py "fi"))
    min_freq min_word_len sample_size
  = Raise ValueError.
Proof.
  intros Hlow Hlem Hload Hretry Hfi Hfinish.
  unfold clean_and_tokenize_texts, resolve_language.
  rewrite Hlow, Hlem. cbn [default responses_list].
  cbn [mbind result_bind].
  rewrite tokenize_responses_str.
  unfold lemmatized_tokens, try_lemmatize.
  rewrite Hload, Hretry. cbn [mbind result_bind].
  unfold stem_or_pass, select_stemmer, SnowballStemmer.
  destruct (bool_decide_reflect (py "fi" ∈ snowball_languages E));
    [done|].
  destruct (bool_decide_reflect (py "finish" ∈ snowball_languages E));
    [done|].
  reflexivity.
Qed.

Lemma finnish_abbreviation_raises_witness :
  clean_and_tokenize_texts Example.env
    (Texts (map PyStr [py "good movie"])) (Some (py "fi"))
    (ArgInt 2) (ArgInt 4) (NumInt 1)
  = Raise ValueError.
Proof.
  apply (finnish_abbreviation_raises Example.env [py "good movie"]
           (ArgInt 2) (ArgInt 4) (NumInt 1) OSError).
  - reflexivity.
  - reflexivity.
  - reflexivity.
  - reflexivity.
  - apply (bool_decide_unpack _). vm_compute. exact I.
  - apply (bool_decide_unpack _). vm_compute. exact I.
Defined.

(** ** Responses that are not strings *)

Lemma collapse_run_not_str r i :
  is_str r = false →
  collapse_run r i = Ok r
  ∨ ∃ e, collapse_run r i = Raise e ∧ type_or_attribute_error e.
Proof.
  unfold collapse_run, type_or_attribute_error.
  destruct r as [s| | | |l]; simpl; intros Hr; try done; eauto.
  destruct (bool_decide _); simpl; eauto.
Qed.

Lemma remove_large_spaces_not_str r :
  is_str r = false →
  remove_large_spaces r = Ok r
  ∨ ∃ e, remove_large_spaces r = Raise e ∧ type_or_attribute_error e.
Proof.
  intros Hr. unfold remove_large_spaces.
  induction space_run_lengths as [|i l IH]; [by left|].
  cbn [foldM].
  destruct (collapse_run_not_str r i Hr) as [->|(e & -> & He)].
  - apply IH.
  - right. by exists e.
Qed.

(** The first loop raises, or hands every entry on with its type. *)
Lemma mapM_remove_large_spaces l :
  (∃ l', mapM remove_large_spaces l = Ok l'
         ∧ Forall2 (λ r r', is_str r = is_str r') l l')
  ∨ ∃ e, mapM remove_large_spaces l = Raise e ∧ type_or_attribute_error e.
Proof.
  induction l as [|r l IH]; [left; by exists []|].
  cbn [mapM].
  assert (Hr : (∃ r', remove_large_spaces r = Ok r' ∧ is_str r = is_str r')
               ∨ ∃ e, remove_large_spaces r = Raise e
                      ∧ type_or_attribute_error e).
  { destruct (is_str r) eqn:Hs.
    - destruct r; try done. left. eexists.
      split; [apply remove_large_spaces_str|done].
    - destruct (remove_large_spaces_not_str r Hs) as [->|?]; [|by right].
      left. by exists r. }
  destruct Hr as [(r' & -> & Hr')|(e & -> & He)].
  - destruct IH as [(l' & -> & Hl')|(e & -> & He)].
    + left. exists (r' :: l'). split; [done|]. by constructor.
    + right. by exists e.
  - right. by exists e.
Qed.

Lemma mapM_remove_random_punctuation lang l :
  (∃ r, r ∈ l ∧ is_str r = false) →
  mapM (remove_random_punctuation lang) l = Raise AttributeError.
Proof.
  intros (r & Hin & Hr).
  induction Hin as [r l|r r0 l Hin IH]; cbn [mapM].
  - by destruct r.
  - destruct r0 as [s| | | |l0]; try done.
    rewrite remove_random_punctuation_str.
    cbn [mbind result_bind]. by rewrite IH.
Qed.

(** C9, as the code has it: a list of responses with an entry that is
    not a string ([None], a number, a list) is not filtered; the call
    raises [TypeError] or [AttributeError] in one of its first two
    loops. *)
Theorem non_string_response_raises (E : Env) (l : list pyval)
  (input_language : str) (min_freq min_word_len : pyarg)
  (sample_size : pynum) :
  (∃ r, r ∈ l ∧ is_str r = false) →
  ∃ e,
    clean_and_tokenize_texts E (Texts l) (Some input_language)
      min_freq min_word_len sample_size = Raise e
    ∧ type_or_attribute_error e.
Proof.
  intros (r & Hin & Hr).
  unfold clean_and_tokenize_texts, resolve_language, tokenize_responses.
  cbn [mbind result_bind responses_list].
  destruct (mapM_remove_large_spaces l) as [(l' & -> & Hl')|(e & -> & He)].
  - exists AttributeError. split; [|by right].
    cbn [mbind result_bind].
    rewrite mapM_remove_random_punctuation; [done|].
    apply list_elem_of_lookup in Hin as [i Hi].
    destruct (Forall2_lookup_l _ _ _ _ _ Hl' Hi) as (r' & Hi' & Heq).
    exists r'. split; [by eapply list_elem_of_lookup_2|congruence].
  - by exists e.
Qed.

Lemma non_string_response_raises_witness :
  ∃ e,
    clean_and_tokenize_texts Example.env
      (Texts [PyStr (py "good movie"); PyNone]) (Some (py "English"))
      (ArgInt 2) (ArgInt 4) (NumInt 1) = Raise e
    ∧ type_or_attribute_error e.
Proof.
  apply (non_string_response_raises Example.env
           [PyStr (py "good movie"); PyNone] (py "English")
           (ArgInt 2) (ArgInt 4) (NumInt 1)).
  exists PyNone. split; [|reflexivity].
  apply list_elem_of_further, list_elem_of_here.
Defined.

(** C9, as stated, fails: with [None] among the responses the call
    raises [TypeError] at the test [large_space in r]. *)
Lemma none_response_not_filtered :
  clean_and_tokenize_texts Example.env
    (Texts [PyStr (py "good movie"); PyNone]) (Some (py "English"))
    (ArgInt 2) (ArgInt 4) (NumInt 1)
  = Raise TypeError.
Proof. vm_compute. reflexivity. Qed.

(** ** The sample *)

Lemma sample_count_empty sample_size k :
  sample_count sample_size 0 = Ok k → k = 0%Z.
Proof.
  destruct sample_size as [z|f]; simpl.
  - intros [= <-]. lia.
  - change (float_of_int 0) with (Ok (S754_zero false)).
    cbn [mbind result_bind].
    destruct f as [s|s| |s m e]; simpl; try done; by intros [= <-].
Qed.

Lemma random_choices_nonempty (E : Env) n k :
  random_choices E (S n) k
  = Ok (map (λ j, draws E j `mod` S n)%nat (seq 0 (Z.to_nat k))).
Proof. unfold random_choices. by apply mapM_Ok_Forall, Forall_forall. Qed.

Lemma random_choices_none (E : Env) n : random_choices E n 0 = Ok [].
Proof. done. Qed.

(** Every selected index is below the number of responses. *)
Lemma select_idxs_bound (E : Env) sample_size n idxs :
  select_idxs E sample_size n = Ok idxs → Forall (λ i, i < n)%nat idxs.
Proof.
  unfold select_idxs. destruct (differs_from_1 sample_size).
  - intros (k & Hk & Hidxs)%bind_Ok. destruct n as [|n].
    + apply sample_count_empty in Hk as ->.
      injection Hidxs as <-. constructor.
    + rewrite random_choices_nonempty in Hidxs. injection Hidxs as <-.
      apply Forall_forall. intros i (j & -> & _)%list_elem_of_fmap.
      apply (Nat.mod_upper_bound (draws E j) (S n)). done.
  - intros [= <-]. apply Forall_forall.
    by intros i [_ ?]%elem_of_seq.
Qed.



(** ** The corpus of the responses that are left *)

Lemma filter_Forall_id {A} (P : A → Prop) `{∀ x, Decision (P x)} l :
  Forall P l → filter P l = l.
Proof.
  induction 1 as [|x l Hx _ IH]; [done|].
  by rewrite filter_cons_True, IH.
Qed.

Lemma mapM_index_total {A} `{Inhabited A} (l : list A) idxs :
  Forall (λ i, i < length l)%nat idxs →
  mapM (index l) idxs = Ok (map (λ i, l !!! i) idxs).
Proof.
  intros Hb. apply mapM_Ok_Forall.
  eapply Forall_impl; [exact Hb|]. intros i Hi. unfold index.
  by rewrite list_lookup_lookup_total_lt.
Qed.

Lemma map_lookup_total_seq {A} `{Inhabited A} (l : list A) :
  map (λ i, l !!! i) (seq 0 (length l)) = l.
Proof.
  assert (Heq : Ok (map (λ i, l !!! i) (seq 0 (length l))) = Ok l).
  { rewrite <-mapM_index_total, mapM_index_all; [done|].
    apply Forall_forall. by intros i [_ ?]%elem_of_seq. }
  by injection Heq.
Qed.

Lemma non_empty_token_indexes_bound tokens :
  Forall (λ i, i < length tokens)%nat (non_empty_token_indexes tokens).
Proof.
  apply Forall_forall.
  intros i [_ [_ ?]%elem_of_seq]%list_elem_of_filter. done.
Qed.


Lemma length_min_len_freq_tokens min_freq min_word_len lemmatized :
  length (min_len_freq_tokens min_freq min_word_len lemmatized)
  = length lemmatized.
Proof. unfold min_len_freq_tokens. apply length_map. Qed.


Section Corpus.

Variable E : Env.

Lemma mapM_clean_entry (texts : list str) idxs :
  Forall (λ i, i < length texts)%nat idxs →
  mapM (λ i, r ← index (map PyStr texts) i; clean_entry E r) idxs
  = Ok (map (λ i, _clean_text_strings E (texts !!! i)) idxs).
Proof.
  intros Hb. apply mapM_Ok_Forall.
  eapply Forall_impl; [exact Hb|]. intros i Hi. unfold index.
  rewrite list_lookup_fmap, list_lookup_lookup_total_lt by done.
  done.
Qed.

(** For responses that are strings, no index of [select_corpus] is out
    of range: the step raises only when the sampling does. *)
Lemma select_corpus_str (texts : list str) min_freq min_word_len
  sample_size lemmatized :
  (length lemmatized ≤ length texts)%nat →
  select_corpus E (map PyStr texts) min_freq min_word_len sample_size
    lemmatized
  = (let filtered :=
       min_len_freq_tokens min_freq min_word_len lemmatized in
     let idxs := non_empty_token_indexes filtered in
     let text_corpus := map (λ i, filtered !!! i) idxs in
     let clean_texts :=
       map (λ i, _clean_text_strings E (texts !!! i)) idxs in
     selected_idxs ← select_idxs E sample_size (length idxs);
     Ok (map (λ i, text_corpus !!! i) selected_idxs,
         map (λ i, clean_texts !!! i) selected_idxs,
         selected_idxs)).
Proof.
  intros Hlen. unfold select_corpus. cbv zeta.
  set (filtered := min_len_freq_tokens min_freq min_word_len lemmatized).
  assert (Hidx := non_empty_token_indexes_bound filtered).
  rewrite mapM_index_total by done. cbn [mbind result_bind].
  rewrite mapM_clean_entry.
  2:{ eapply Forall_impl; [exact Hidx|]. intros i Hi. simpl in Hi.
      unfold filtered in Hi.
      rewrite length_min_len_freq_tokens in Hi. lia. }
  cbn [mbind result_bind]. rewrite length_map.
  destruct (select_idxs E sample_size _) as [selected|e] eqn:Hsel; [|done].
  apply select_idxs_bound in Hsel. cbn [mbind result_bind].
  rewrite !mapM_index_total; [done|..];
    by rewrite length_map.
Qed.

Lemma length_lemmatize nlp tokens lemmatized :
  lemmatize nlp tokens = Ok lemmatized →
  length lemmatized = length tokens.
Proof. apply mapM_Ok_length. Qed.

Lemma length_lemmatized_tokens lang tokens lemmatized :
  lemmatized_tokens E lang tokens = Ok lemmatized →
  length lemmatized = length tokens.
Proof.
  unfold lemmatized_tokens.
  intros ([nlp lt] & Htry & H)%bind_Ok.
  destruct nlp as [nlp|].
  - destruct lt as [l|]; [|done]. injection H as <-.
    unfold try_lemmatize in Htry.
    repeat match type of Htry with
           | context [match ?x with _ => _ end] =>
               let Hx := fresh "Hx" in destruct x eqn:Hx; try done
           end;
      injection Htry as <- <-; by eapply length_lemmatize.
  - unfold stem_or_pass in H.
    apply bind_Ok in H as (stemmer & _ & H).
    destruct stemmer; injection H as <-; [apply length_map|done].
Qed.

Lemma length_tokenized_texts lang (texts : list str) :
  (length (tokenized_texts E lang texts) ≤ length texts)%nat.
Proof.
  unfold tokenized_texts.
  etrans; [apply length_filter|]. by rewrite length_map.
Qed.

Lemma tokenized_texts_nonempty lang texts :
  Forall (λ t, t ≠ []) (tokenized_texts E lang texts).
Proof.
  apply Forall_forall. by intros t [? _]%list_elem_of_filter.
Qed.

Lemma tokens_with_bigrams_nonempty tokenized :
  Forall (λ t, t ≠ []) tokenized →
  Forall (λ t, t ≠ []) (tokens_with_bigrams E tokenized).
Proof.
  intros Hne. unfold tokens_with_bigrams. apply Forall_fmap.
  eapply Forall_impl; [exact Hne|]. intros t Ht. simpl.
  by apply insert_bigrams_nonempty.
Qed.

End Corpus.

(** For responses that are strings the call raises only where the
    choice of the stemmer or the sampling does. *)
Lemma clean_and_tokenize_texts_str (E : Env) (texts : list str)
  (input_language : str) min_freq min_word_len sample_size :
  clean_and_tokenize_texts E (Texts (map PyStr texts))
    (Some input_language) min_freq min_word_len sample_size
  = (let lang := default (lower E input_language)
                   (lem_abbr_dict E !! lower E input_language) in
     let tokenized :=
       tokenized_texts E lang (map (prepare_text E lang) texts) in
     lemmatized ← lemmatized_tokens E lang (tokens_with_bigrams E tokenized);
     let filtered :=
       min_len_freq_tokens min_freq min_word_len lemmatized in
     let idxs := non_empty_token_indexes filtered in
     let text_corpus := map (λ i, filtered !!! i) idxs in
     let clean_texts :=
       map (λ i, _clean_text_strings E (texts !!! i)) idxs in
     selected_idxs ← select_idxs E sample_size (length idxs);
     Ok (map (λ i, text_corpus !!! i) selected_idxs,
         map (λ i, clean_texts !!! i) selected_idxs,
         selected_idxs)).
Proof.
  unfold clean_and_tokenize_texts, resolve_language.
  cbn [mbind result_bind responses_list].
  rewrite tokenize_responses_str. cbn [mbind result_bind]. cbv zeta.
  destruct (lemmatized_tokens E _ _) as [lemmatized|e] eqn:Hlem; [|done].
  cbn [mbind result_bind]. apply select_corpus_str.
  apply length_lemmatized_tokens in Hlem. rewrite Hlem.
  unfold tokens_with_bigrams. rewrite length_map.
  etrans; [apply length_tokenized_texts|]. by rewrite length_map.
Qed.

(** C2: whenever the call returns, whatever the responses, the
    language, the minima and the sample size are, the three lists it
    returns have the same length. *)
Theorem corpus_components_same_length (E : Env) (responses : pyresponses)
  (input_language : option str) (min_freq min_word_len : pyarg)
  (sample_size : pynum) (text_corpus : list (list str))
  (clean_texts : list str) (selected_idxs : list nat) :
  clean_and_tokenize_texts E responses input_language min_freq
    min_word_len sample_size
  = Ok (text_corpus, clean_texts, selected_idxs) →
  length text_corpus = length clean_texts
  ∧ length clean_texts = length selected_idxs.
Proof.
  unfold clean_and_tokenize_texts.
  intros (lang & _ & (tokenized & _ & (lemmatized & _ & H)%bind_Ok)%bind_Ok)
         %bind_Ok.
  unfold select_corpus in H.
  apply bind_Ok in H as (tc & _ & H).
  apply bind_Ok in H as (ct & _ & H).
  apply bind_Ok in H as (si & _ & H).
  apply bind_Ok in H as (tc' & Htc & H).
  apply bind_Ok in H as (ct' & Hct & H).
  injection H as <- <- <-.
  apply mapM_Ok_length in Htc, Hct. split; congruence.
Qed.

Lemma corpus_components_same_length_witness :
  length [[py "happy"]; [py "happy"]]
  = length [py "so happy"; py "happy movie"]
  ∧ length [py "so happy"; py "happy movie"] = length [0%nat; 1%nat].
Proof.
  apply (corpus_components_same_length Example.env
           (Texts [PyStr (py "so happy"); PyStr (py "happy movie")])
           (Some (py "Klingon")) (ArgInt 2) (ArgInt 4)
           (NumFloat float_1)).
  vm_compute. reflexivity.
Defined.




(** ** The order of the parts of speech *)

Lemma fill_buckets (b0 b1 b2 b3 b4 b5 : list pyitem) :
  foldM (fill_bucket [b0; b1; b2; b3; b4; b5]) [] (seq 0 6)
  = Ok [(py "Nouns:", b0 ++ b1); (py "Adjectives:", b2);
        (py "Adverbs:", b3); (py "Verbs:", b4); (py "Other:", b5)].
Proof. reflexivity. Qed.

Lemma mapM_first_token (nlp : str → list Token) outputs :
  (∃ tokens, mapM (λ o, index (nlp o) 0) outputs = Ok tokens
             ∧ Forall2 (λ o t, head (nlp o) = Some t) outputs tokens)
  ∨ (mapM (λ o, index (nlp o) 0) outputs = Raise IndexError
     ∧ ∃ o, o ∈ outputs ∧ nlp o = []).
Proof.
  induction outputs as [|o outputs IH];
    [left; exists []; split; [done|constructor]|].
  cbn [mapM]. destruct (nlp o) as [|t ts] eqn:Ho.
  - right. split; [done|]. exists o. split; [apply list_elem_of_here|done].
  - change (index (t :: ts) 0) with (Ok t). cbn [mbind result_bind].
    destruct IH as [(tokens & -> & Hall)|(-> & o' & Hin & Ho')].
    + left. exists (t :: tokens). split; [done|].
      constructor; [by rewrite Ho|done].
    + right. split; [done|]. exists o'.
      split; [by apply list_elem_of_further|done].
Qed.

(** C10, as the code has it.  A language that does not resolve to a code
    of the lemmatizer table gives the keywords back unchanged.  For a
    language of the table the call raises when the spaCy model cannot be
    loaded or a keyword has no token; otherwise it returns the buckets
    that are not empty, their keys in the order Nouns, Adjectives,
    Adverbs, Verbs, Other: nouns and proper nouns together, and under
    Other every keyword that is not the text of a first token of one of
    the five parts of speech. *)
Theorem order_by_pos_buckets (E : Env) (outputs : list str)
  (output_language : str) :
  let lang := default output_language
                (lem_abbr_dict E !! output_language) in
  let of_pos (tokens : list Token) (p : str) :=
    filter (λ o, pos_ o = p) tokens in
  (¬ (lang ∈ (map_to_list (lem_abbr_dict E)).*2)
   ∧ _order_by_pos E outputs output_language = Ok (OutputsList outputs))
  ∨ (lang ∈ (map_to_list (lem_abbr_dict E)).*2
     ∧ match spacy_load E lang with
       | Raise e => _order_by_pos E outputs output_language = Raise e
       | Ok nlp =>
           (_order_by_pos E outputs output_language = Raise IndexError
            ∧ ∃ o, o ∈ outputs ∧ nlp o = [])
           ∨ ∃ tokens d,
               Forall2 (λ o t, head (nlp o) = Some t) outputs tokens
               ∧ _order_by_pos E outputs output_language
                 = Ok (OutputsDict d)
               ∧ d = filter (λ kv, kv.2 ≠ [])
                       [(py "Nouns:",
                         map ItemToken (of_pos tokens (py "NOUN")
                                        ++ of_pos tokens (py "PROPN")));
                        (py "Adjectives:",
                         map ItemToken (of_pos tokens (py "ADJ")));
                        (py "Adverbs:",
                         map ItemToken (of_pos tokens (py "ADV")));
                        (py "Verbs:",
                         map ItemToken (of_pos tokens (py "VERB")));
                        (py "Other:",
                         map ItemStr
                           (filter
                              (λ o, o ∉ map text
                                          (concat (map (of_pos tokens)
                                                       pos_order)))
                              outputs))]
               ∧ d.*1 `sublist_of` key_order
               ∧ Forall (λ kv, kv.2 ≠ []) d
       end).
Proof.
  intros lang of_pos. unfold _order_by_pos. fold lang.
  destruct (bool_decide_reflect
              (lang ∈ (map_to_list (lem_abbr_dict E)).*2)) as [Hin|Hin];
    [right|left; done].
  split; [done|].
  destruct (spacy_load E lang) as [nlp|e]; [|done].
  cbn [mbind result_bind].
  destruct (mapM_first_token nlp outputs)
    as [(tokens & -> & Hall)|(-> & Hempty)]; [right|left; done].
  exists tokens. eexists. split; [done|].
  cbn [mbind result_bind]. cbn [pos_order map app length].
  rewrite fill_buckets. cbn [mbind result_bind].
  split; [reflexivity|]. split; [by rewrite map_app|]. split.
  - etrans; [apply fmap_sublist, sublist_filter|]. done.
  - apply Forall_forall. by intros kv [? _]%list_elem_of_filter.
Qed.

(** C10, as stated, fails: the empty keyword has no token, and
    [nlp(o)[0]] raises [IndexError] for it. *)
Lemma keyword_without_token_raises :
  _order_by_pos Example.env [py "happy"; []] (py "english")
  = Raise IndexError.
Proof. vm_compute. reflexivity. Qed.

(** ** More about the tokens *)

Lemma split_from_clean cur s :
  Forall (λ w, w ≠ [] ∧ Forall (λ c, isspace c = false) w)
         (split_from cur s)
  ∨ ¬ Forall (λ c, isspace c = false) cur.
Proof.
  revert cur. induction s as [|c s IH]; intros cur.
  - destruct (decide (Forall (λ c, isspace c = false) cur)) as [Hc|Hc];
      [left|by right].
    simpl. destruct cur as [|d cur]; [constructor|].
    repeat constructor.
    + intros Hnil. by apply (f_equal length) in Hnil;
        rewrite length_reverse in Hnil.
    + by apply Forall_reverse.
  - destruct (decide (Forall (λ c, isspace c = false) cur)) as [Hc|Hc];
      [left|by right].
    simpl. destruct (isspace c) eqn:Hsp.
    + destruct (IH []) as [IH'|IH']; [|by destruct IH'].
      destruct cur as [|d cur]; [done|].
      constructor; [|done]. split.
      * intros Hnil. by apply (f_equal length) in Hnil;
          rewrite length_reverse in Hnil.
      * by apply Forall_reverse.
    + destruct (IH (c :: cur)) as [IH'|IH']; [done|].
      destruct IH'. by constructor.
Qed.

Lemma split_clean s :
  Forall (λ w, w ≠ [] ∧ Forall (λ c, isspace c = false) w) (split s).
Proof.
  destruct (split_from_clean [] s) as [H|H]; [done|].
  destruct H. constructor.
Qed.

(** Lines 240 to 248: every token list that is kept is not empty, and
    every token in it is a non-empty run of characters that are not
    whitespace, is no stop word of the language and is not numeric. *)
Theorem tokenized_texts_tokens (E : Env) (input_language : str)
  (texts : list str) :
  Forall (λ tokens,
            tokens ≠ []
            ∧ Forall (λ t, t ≠ []
                           ∧ Forall (λ c, isspace c = false) t
                           ∧ ¬ (t ∈ stop_words E input_language)
                           ∧ isnumeric E t = false)
                     tokens)
         (tokenized_texts E input_language texts).
Proof.
  apply Forall_forall. intros tokens [Hne Hin]%list_elem_of_filter.
  split; [done|].
  apply list_elem_of_fmap in Hin as (text & -> & _).
  apply Forall_forall. intros t [[Hstop Hnum] Ht]%list_elem_of_filter.
  pose proof (split_clean (lower E text)) as Hsplit.
  rewrite Forall_forall in Hsplit. destruct (Hsplit t Ht). done.
Qed.

(** *** Joining and splitting *)

Lemma split_from_word w cur s :
  Forall (λ c, isspace c = false) w →
  split_from cur (w ++ s) = split_from (reverse w ++ cur) s.
Proof.
  intros Hw. revert cur.
  induction Hw as [|c w Hc _ IH]; intros cur; [done|].
  simpl. rewrite Hc, IH, reverse_cons, <-app_assoc. done.
Qed.

Lemma split_join (words : list str) :
  Forall (λ w, w ≠ [] ∧ Forall (λ c, isspace c = false) w) words →
  split (join (py " ") words) = words.
Proof.
  unfold split.
  induction 1 as [|w words [Hne Hw] Hwords IH]; [done|].
  destruct words as [|w' words].
  - simpl. rewrite <-(app_nil_r w) at 1.
    rewrite split_from_word, app_nil_r by done. simpl.
    destruct (reverse w) as [|c r] eqn:Hr.
    + apply (f_equal length) in Hr. rewrite length_reverse in Hr.
      by destruct w.
    + by rewrite <-Hr, reverse_involutive.
  - change (join (py " ") (w :: w' :: words))
      with (w ++ 32 :: join (py " ") (w' :: words)).
    rewrite split_from_word, app_nil_r by done.
    cbn [split_from]. change (isspace 32) with true. cbv iota.
    destruct (reverse w) as [|c r] eqn:Hr.
    + apply (f_equal length) in Hr. rewrite length_reverse in Hr.
      by destruct w.
    + by rewrite <-Hr, reverse_involutive, IH.
Qed.

(** Lines 108 to 125 and 243: for a non-empty list of words that are
    not empty and hold no whitespace (the tokens of the pipeline are
    such), splitting what [_combine_tokens_to_str] returns gives the
    words back. *)
Theorem combine_then_split (tokens : list str) :
  tokens ≠ [] →
  Forall (λ w, w ≠ [] ∧ Forall (λ c, isspace c = false) w) tokens →
  ∃ s, _combine_tokens_to_str tokens [] = Ok s ∧ split s = tokens.
Proof.
  intros Hne Hclean. destruct tokens as [|t tokens]; [done|].
  unfold _combine_tokens_to_str.
  rewrite filter_Forall_id
    by (apply Forall_forall; intros ? _; apply not_elem_of_nil).
  eexists. split; [done|]. by apply split_join.
Qed.

Lemma combine_then_split_witness :
  ∃ s, _combine_tokens_to_str [py "happy"; py "customer"] [] = Ok s
       ∧ split s = [py "happy"; py "customer"].
Proof.
  apply (combine_then_split [py "happy"; py "customer"]).
  - discriminate.
  - repeat constructor; discriminate.
Defined.

(** *** The frequencies after the filter *)

Lemma document_frequency_filter (P : str → Prop) `{∀ t, Decision (P t)}
  (responses : list (list str)) t :
  document_frequency (map (filter P) responses) t
  = if decide (P t) then document_frequency responses t else 0%nat.
Proof.
  unfold document_frequency.
  induction responses as [|tokens responses IH].
  - by destruct (decide (P t)).
  - cbn [map]. rewrite !filter_cons.
    destruct (decide (P t)) as [HP|HP].
    + destruct (decide (t ∈ tokens)) as [Ht|Ht].
      * rewrite decide_True by (by apply list_elem_of_filter).
        cbn [length]. by rewrite IH.
      * rewrite decide_False by (by intros [_ ?]%list_elem_of_filter).
        done.
    + rewrite decide_False by (by intros [? _]%list_elem_of_filter).
      done.
Qed.

(** Lines 321 to 340: the filter keeps or removes a token in all the
    responses at once, so a token that is kept is in as many responses
    of the filtered corpus as before, and every token of the filtered
    corpus is in at least [min_freq] of its responses. *)
Theorem filter_keeps_document_frequency (min_freq min_word_len : pyarg)
  (lemmatized : list (list str)) :
  let filtered := min_len_freq_tokens min_freq min_word_len lemmatized in
  Forall (Forall (λ t,
            document_frequency filtered t = document_frequency lemmatized t
            ∧ (minimum min_freq
               ≤ Z.of_nat (document_frequency filtered t))%Z
            ∧ (minimum min_word_len ≤ Z.of_nat (length t))%Z))
         filtered.
Proof.
  intros filtered.
  assert (Hf : filtered
               = map (filter (λ t,
                   (minimum min_word_len ≤ Z.of_nat (length t))%Z
                   ∧ (minimum min_freq
                      ≤ Z.of_nat (document_frequency lemmatized t))%Z))
                   lemmatized).
  { unfold filtered, min_len_freq_tokens. apply map_ext. intros tokens.
    apply list_filter_iff. intros t.
    by rewrite token_frequencies_lookup. }
  apply Forall_forall. intros tokens Htokens.
  apply Forall_forall. intros t Ht.
  assert (Hkeep : (minimum min_word_len ≤ Z.of_nat (length t))%Z
                  ∧ (minimum min_freq
                     ≤ Z.of_nat (document_frequency lemmatized t))%Z).
  { rewrite Hf in Htokens.
    apply list_elem_of_fmap in Htokens as (tokens' & -> & _).
    by apply list_elem_of_filter in Ht as [? _]. }
  assert (Hdf : document_frequency filtered t
                = document_frequency lemmatized t).
  { rewrite Hf, document_frequency_filter. by rewrite decide_True. }
  rewrite Hdf. tauto.
Qed.

(** ** More about the corpus that is returned *)

Lemma mapM_Ok_Forall2 {A B} (f : A → result B) l l' :
  mapM f l = Ok l' → Forall2 (λ x y, f x = Ok y) l l'.
Proof.
  revert l'. induction l as [|x l IH]; intros l'; cbn [mapM].
  - intros [= <-]. constructor.
  - intros (y & Hy & (ys & Hys & [= <-])%bind_Ok)%bind_Ok.
    constructor; [done|]. by apply IH.
Qed.

Lemma mapM_index_elem_of {A} (l : list A) idxs l' :
  mapM (index l) idxs = Ok l' → Forall (λ x, x ∈ l) l'.
Proof.
  intros H%mapM_Ok_Forall2.
  induction H as [|i x idxs l' Hi _ IH]; constructor; [|done].
  unfold index in Hi. destruct (l !! i) as [y|] eqn:Hy; [|done].
  injection Hi as <-. by eapply list_elem_of_lookup_2.
Qed.

(** Lines 343 to 363: whatever the arguments are, when the call
    returns, no token list of the corpus is empty and every clean text
    is the normalisation of one of the responses. *)
Theorem corpus_entries (E : Env) (responses : pyresponses)
  (input_language : option str) (min_freq min_word_len : pyarg)
  (sample_size : pynum) (text_corpus : list (list str))
  (clean_texts : list str) (selected_idxs : list nat) :
  clean_and_tokenize_texts E responses input_language min_freq
    min_word_len sample_size
  = Ok (text_corpus, clean_texts, selected_idxs) →
  Forall (λ tokens, tokens ≠ []) text_corpus
  ∧ Forall (λ c, ∃ s, PyStr s ∈ responses_list responses
                      ∧ c = _clean_text_strings E s)
           clean_texts.
Proof.
  unfold clean_and_tokenize_texts.
  intros (lang & _ & (tokenized & _ & (lemmatized & _ & H)%bind_Ok)%bind_Ok)
         %bind_Ok.
  unfold select_corpus in H.
  apply bind_Ok in H as (tc & Htc0 & H).
  apply bind_Ok in H as (ct & Hct0 & H).
  apply bind_Ok in H as (si & _ & H).
  apply bind_Ok in H as (tc' & Htc & H).
  apply bind_Ok in H as (ct' & Hct & H).
  injection H as <- <- <-. split.
  - apply mapM_index_elem_of in Htc.
    eapply Forall_impl; [exact Htc|]. intros tokens Hin.
    apply mapM_Ok_Forall2 in Htc0.
    apply list_elem_of_lookup in Hin as [j Hj].
    destruct (Forall2_lookup_r _ _ _ _ _ Htc0 Hj) as (i & Hi & Hidx).
    apply list_elem_of_lookup_2, list_elem_of_filter in Hi as [Hne _].
    unfold index in Hidx.
    destruct (_ !! i) as [t|] eqn:Ht; [|done].
    injection Hidx as <-. by intros ->.
  - apply mapM_index_elem_of in Hct.
    eapply Forall_impl; [exact Hct|]. intros c Hin.
    apply mapM_Ok_Forall2 in Hct0.
    apply list_elem_of_lookup in Hin as [j Hj].
    destruct (Forall2_lookup_r _ _ _ _ _ Hct0 Hj) as (i & _ & Hidx).
    apply bind_Ok in Hidx as (r & Hr & Hc).
    unfold index in Hr.
    destruct (_ !! i) as [r'|] eqn:Hr'; [|done]. injection Hr as ->.
    destruct r as [s| | | |]; try done. injection Hc as <-.
    exists s. split; [by eapply list_elem_of_lookup_2|done].
Qed.

Lemma corpus_entries_witness :
  Forall (λ tokens, tokens ≠ []) [[py "happy"]; [py "happy"]]
  ∧ Forall (λ c, ∃ s, PyStr s ∈ responses_list
                        (Texts [PyStr (py "so happy");
                                PyStr (py "happy movie")])
                      ∧ c = _clean_text_strings Example.env s)
           [py "so happy"; py "happy movie"].
Proof.
  apply (corpus_entries Example.env
           (Texts [PyStr (py "so happy"); PyStr (py "happy movie")])
           (Some (py "Klingon")) (ArgInt 2) (ArgInt 4)
           (NumFloat float_1) _ _ [0%nat; 1%nat]).
  vm_compute. reflexivity.
Defined.

Lemma lemmatize_nonempty nlp (tokens : list (list str)) :
  Forall (λ t, t ≠ []) tokens →
  ∃ lemmatized, lemmatize nlp tokens = Ok lemmatized.
Proof.
  intros Hne. eexists. unfold lemmatize.
  apply (mapM_Ok_Forall _
           (λ tokens, map lemma_
                        (filter (λ token, pos_ token ∈ allowed_pos_tags)
                                (nlp (join (py " ") tokens))))).
  eapply Forall_impl; [exact Hne|]. intros t Ht. simpl.
  destruct t as [|w t]; [done|].
  unfold _combine_tokens_to_str.
  rewrite filter_Forall_id
    by (apply Forall_forall; intros ? _; apply not_elem_of_nil).
  done.
Qed.

Lemma survivors_in_order (l k : list (list str)) :
  map (λ i, (k ++ l) !!! i)
      (filter (λ i, (k ++ l) !! i ≠ Some []) (seq (length k) (length l)))
  = filter (λ t, t ≠ []) l.
Proof.
  revert k. induction l as [|x l IH]; intros k; [done|].
  cbn [length seq]. rewrite !filter_cons.
  specialize (IH (k ++ [x])).
  rewrite length_app, <-app_assoc in IH. cbn [length app] in IH.
  rewrite Nat.add_1_r in IH.
  rewrite list_lookup_middle by done.
  destruct (decide (x ≠ [])) as [Hx|Hx].
  - rewrite decide_True by congruence. cbn [map].
    rewrite list_lookup_total_middle by done. by rewrite IH.
  - rewrite decide_False; [done|]. intros H. apply Hx. congruence.
Qed.

(** Lines 158 to 363: for responses that are strings, when spaCy fails
    with nothing but [OSError], a stemmer can be chosen and the sample
    size is 1, the call returns: no index is out of range and nothing
    else raises.  The corpus holds, in the order of the responses, the
    filtered token lists that are not empty. *)
Theorem string_responses_return (E : Env) (texts : list str)
  (input_language : str) (min_freq min_word_len : pyarg)
  (sample_size : pynum) (stemmer : option (str → str)) :
  let lang := default (lower E input_language)
                (lem_abbr_dict E !! lower E input_language) in
  let with_bigrams :=
    tokens_with_bigrams E
      (tokenized_texts E lang (map (prepare_text E lang) texts)) in
  (∀ e, spacy_load E lang = Raise e → e = OSError) →
  select_stemmer E lang = Ok stemmer →
  differs_from_1 sample_size = false →
  ∃ lemmatized clean_texts,
    lemmatized_tokens E lang with_bigrams = Ok lemmatized
    ∧ let text_corpus :=
        filter (λ t, t ≠ [])
               (min_len_freq_tokens min_freq min_word_len lemmatized) in
      clean_and_tokenize_texts E (Texts (map PyStr texts))
        (Some input_language) min_freq min_word_len sample_size
      = Ok (text_corpus, clean_texts, seq 0 (length text_corpus)).
Proof.
  intros lang with_bigrams Hload Hstem Hsample.
  assert (Hne : Forall (λ t, t ≠ []) with_bigrams)
    by apply tokens_with_bigrams_nonempty, tokenized_texts_nonempty.
  assert (Hlem : ∃ lemmatized,
             lemmatized_tokens E lang with_bigrams = Ok lemmatized).
  { unfold lemmatized_tokens, try_lemmatize.
    destruct (spacy_load E lang) as [nlp|e] eqn:Hl.
    - destruct (lemmatize_nonempty nlp with_bigrams Hne) as [l ->].
      by exists l.
    - rewrite (Hload e eq_refl).
      destruct (spacy_load_after_download E lang) as [nlp|e'].
      + destruct (lemmatize_nonempty nlp with_bigrams Hne) as [l ->].
        by exists l.
      + cbn [mbind result_bind]. unfold stem_or_pass. rewrite Hstem.
        cbn [mbind result_bind]. destruct stemmer; eauto. }
  destruct Hlem as [lemmatized Hlem]. exists lemmatized.
  rewrite clean_and_tokenize_texts_str. cbv zeta.
  fold lang. fold with_bigrams. rewrite Hlem.
  cbn [mbind result_bind].
  unfold select_idxs. rewrite Hsample. cbn [mbind result_bind].
  set (filtered := min_len_freq_tokens min_freq min_word_len lemmatized).
  assert (Hsurv : map (λ i, filtered !!! i) (non_empty_token_indexes filtered)
                  = filter (λ t, t ≠ []) filtered)
    by apply (survivors_in_order filtered []).
  rewrite Hsurv.
  assert (Hlen : length (non_empty_token_indexes filtered)
                 = length (filter (λ t, t ≠ []) filtered))
    by (by rewrite <-Hsurv, length_map).
  rewrite Hlen, map_lookup_total_seq.
  eexists. split; [done|]. reflexivity.
Qed.

Lemma string_responses_return_witness :
  ∃ lemmatized clean_texts,
    lemmatized_tokens Example.env (py "en")
      (tokens_with_bigrams Example.env
         (tokenized_texts Example.env (py "en")
            (map (prepare_text Example.env (py "en"))
                 [py "hello"; py "the happy customer"])))
    = Ok lemmatized
    ∧ let text_corpus :=
        filter (λ t, t ≠ [])
               (min_len_freq_tokens (ArgInt 0) (ArgInt 0) lemmatized) in
      clean_and_tokenize_texts Example.env
        (Texts (map PyStr [py "hello"; py "the happy customer"]))
        (Some (py "English")) (ArgInt 0) (ArgInt 0) (NumInt 1)
      = Ok (text_corpus, clean_texts, seq 0 (length text_corpus)).
Proof.
  apply (string_responses_return Example.env
           [py "hello"; py "the happy customer"] (py "English")
           (ArgInt 0) (ArgInt 0) (NumInt 1) None).
  - intros e. vm_compute. discriminate.
  - reflexivity.
  - reflexivity.
Defined.

(** ** More about [_order_by_pos] *)

Lemma order_by_pos_dict (E : Env) outputs output_language d :
  _order_by_pos E outputs output_language = Ok (OutputsDict d) →
  ∃ tokens,
    let of_pos p := filter (λ o : Token, pos_ o = p) tokens in
    d = filter (λ kv, kv.2 ≠ [])
          [(py "Nouns:",
            map ItemToken (of_pos (py "NOUN"))
            ++ map ItemToken (of_pos (py "PROPN")));
           (py "Adjectives:", map ItemToken (of_pos (py "ADJ")));
           (py "Adverbs:", map ItemToken (of_pos (py "ADV")));
           (py "Verbs:", map ItemToken (of_pos (py "VERB")));
           (py "Other:",
            map ItemStr
              (filter (λ o, o ∉ map text (concat (map of_pos pos_order)))
                      outputs))].
Proof.
  unfold _order_by_pos.
  destruct (bool_decide _); [|done].
  intros (nlp & _ & (tokens & _ & H)%bind_Ok)%bind_Ok.
  exists tokens. cbn [pos_order map app length] in H.
  rewrite fill_buckets in H. cbn [mbind result_bind] in H.
  by injection H as <-.
Qed.

(** Lines 534 to 568: in the mapping that is returned no keyword is
    lost: every keyword is listed under ["Other:"] or is the text of a
    token listed under one of the other keys. *)
Theorem order_by_pos_covers (E : Env) (outputs : list str)
  (output_language : str) (d : list (str * list pyitem)) :
  _order_by_pos E outputs output_language = Ok (OutputsDict d) →
  Forall (λ o, ∃ key items,
               (key, items) ∈ d
               ∧ (ItemStr o ∈ items
                  ∨ ∃ t, ItemToken t ∈ items ∧ text t = o))
         outputs.
Proof.
  intros (tokens & ->)%order_by_pos_dict.
  apply Forall_forall. intros o Ho.
  set (of_pos := λ p, filter (λ o : Token, pos_ o = p) tokens).
  assert (Hbucket : ∀ (key : str) (items : list pyitem) (x : pyitem)
                      (l : list (str * list pyitem)),
             x ∈ items → (key, items) ∈ l →
             (key, items) ∈ filter (λ kv : str * list pyitem, kv.2 ≠ []) l).
  { intros key items x l Hx Hl. apply list_elem_of_filter.
    split; [|done]. simpl. intros ->. by apply not_elem_of_nil in Hx. }
  destruct (decide (o ∈ map text (concat (map of_pos pos_order))))
    as [Hin|Hin].
  - apply list_elem_of_fmap in Hin as (t & -> & Ht).
    cbn [pos_order map concat] in Ht.
    rewrite !elem_of_app in Ht.
    assert (Htok : ∀ p, t ∈ of_pos p →
               ItemToken t ∈ map ItemToken (of_pos p))
      by (intros p Hp; by apply list_elem_of_fmap_2).
    destruct Ht as [Ht|[Ht|[Ht|[Ht|[Ht|Ht]]]]].
    + eexists _, _. split; [|right; exists t; split; [|done]].
      * eapply Hbucket; [|apply list_elem_of_here].
        apply elem_of_app. left. by apply Htok.
      * apply elem_of_app. left. by apply Htok.
    + eexists _, _. split; [|right; exists t; split; [|done]].
      * eapply Hbucket; [|apply list_elem_of_here].
        apply elem_of_app. right. by apply Htok.
      * apply elem_of_app. right. by apply Htok.
    + eexists _, _. split; [|right; exists t; split; [|done]].
      * eapply Hbucket; [by apply Htok|].
        do 1 apply list_elem_of_further. apply list_elem_of_here.
      * by apply Htok.
    + eexists _, _. split; [|right; exists t; split; [|done]].
      * eapply Hbucket; [by apply Htok|].
        do 2 apply list_elem_of_further. apply list_elem_of_here.
      * by apply Htok.
    + eexists _, _. split; [|right; exists t; split; [|done]].
      * eapply Hbucket; [by apply Htok|].
        do 3 apply list_elem_of_further. apply list_elem_of_here.
      * by apply Htok.
    + by apply not_elem_of_nil in Ht.
  - assert (Hother : ItemStr o
               ∈ map ItemStr
                   (filter (λ o, o ∉ map text
                                       (concat (map of_pos pos_order)))
                           outputs)).
    { apply list_elem_of_fmap_2, list_elem_of_filter. done. }
    eexists _, _. split; [|left; exact Hother].
    eapply Hbucket; [exact Hother|].
    do 4 apply list_elem_of_further. apply list_elem_of_here.
Qed.

Lemma order_by_pos_covers_witness :
  Forall (λ o, ∃ key items,
               (key, items)
               ∈ [(py "Adjectives:",
                   [ItemToken {| text := py "happy"; lemma_ := py "happy";
                                 pos_ := py "ADJ" |}]);
                  (py "Other:", [ItemStr (py "zzz")])]
               ∧ (ItemStr o ∈ items
                  ∨ ∃ t, ItemToken t ∈ items ∧ text t = o))
         [py "happy"; py "zzz"].
Proof.
  apply (order_by_pos_covers Example.env [py "happy"; py "zzz"]
           (py "english")).
  vm_compute. reflexivity.
Defined.

(** ** [_combine_tokens_to_str] on nested lists *)

Lemma Forall_concat {A} (P : A → Prop) (l : list (list A)) :
  Forall (Forall P) l → ∀ x, x ∈ concat l → P x.
Proof.
  induction 1 as [|y l Hy _ IH]; intros x; cbn [concat].
  - by intros ?%not_elem_of_nil.
  - intros [Hx|Hx]%elem_of_app; [|by apply IH].
    rewrite Forall_forall in Hy. by apply Hy.
Qed.

(** Lines 108 to 125: a non-empty list of lists of words (not empty,
    without whitespace) is flattened, the ignored words are left out,
    and splitting the string that is returned gives the other words
    back in their order. *)
Theorem combine_nested_then_split (l : list (list str))
  (ignore : list str) :
  l ≠ [] →
  Forall (Forall (λ w, w ≠ [] ∧ Forall (λ c, isspace c = false) w)) l →
  ∃ s, combine_tokens_to_str (TokensNested l) (IgnoreList ignore) = Ok s
       ∧ split s = filter (λ w, w ∉ ignore) (concat l).
Proof.
  intros Hne Hclean. destruct l as [|tokens l]; [done|].
  unfold combine_tokens_to_str. cbn [mbind result_bind].
  eexists. split; [done|]. apply split_join.
  apply Forall_forall. intros w [_ Hw]%list_elem_of_filter.
  apply (Forall_concat _ _ Hclean) in Hw. done.
Qed.

Lemma combine_nested_then_split_witness :
  ∃ s, combine_tokens_to_str
         (TokensNested [[py "good"; py "movie"]; [py "good"; py "time"]])
         (IgnoreList [py "good"]) = Ok s
       ∧ split s
         = filter (λ w, w ∉ [py "good"])
                  (concat [[py "good"; py "movie"]; [py "good"; py "time"]]).
Proof.
  apply (combine_nested_then_split
           [[py "good"; py "movie"]; [py "good"; py "time"]] [py "good"]).
  - discriminate.
  - repeat constructor; discriminate.
Defined.

(** ** [load_data] *)

Lemma add_extra_names_spec missing names extra_index :
  add_extra_names missing names extra_index
  = names ++ map extra_col (seq extra_index missing).
Proof.
  revert names extra_index.
  induction missing as [|m IH]; intros names i; cbn [add_extra_names seq map].
  - by rewrite app_nil_r.
  - by rewrite IH, <-app_assoc.
Qed.

Lemma names_for_spec n :
  names_for n
  = column_names ++ map extra_col (seq 0 (n - length column_names)).
Proof. apply add_extra_names_spec. Qed.

Lemma length_names_for n : length (names_for n) = (18 + (n - 18))%nat.
Proof. by rewrite names_for_spec, length_app, length_map, length_seq. Qed.

Lemma decimal_without_o u :
  Forall (λ c, c ≠ 111) (py (NilEmpty.string_of_uint u)).
Proof.
  induction u; cbn [NilEmpty.string_of_uint];
    try (constructor; [by vm_compute|done]).
  constructor.
Qed.

Lemma other_needs_o (s : str) :
  Forall (λ c, c ≠ 111) s → contains_str [111; 116; 104; 101; 114] s = false.
Proof.
  induction 1 as [|c s Hc _ IH]; [done|].
  cbn [contains_str startswith]. rewrite IH.
  destruct (N.eqb_spec 111 c) as [Heq|Hne]; [by destruct Hc|done].
Qed.

Lemma extra_col_without_other i :
  contains_str (py "other") (extra_col i) = false.
Proof.
  unfold extra_col.
  change (py "other") with [111; 116; 104; 101; 114].
  change (py "extra_col_")
    with [101; 120; 116; 114; 97; 95; 99; 111; 108; 95].
  pose proof (other_needs_o _ (decimal_without_o (Nat.to_uint i))) as H.
  cbn [app contains_str]. rewrite H.
  cbn [startswith]. reflexivity.
Qed.

Lemma names_without_other n :
  Forall (λ c, contains_str (py "other") c = false) (names_for n).
Proof.
  rewrite names_for_spec. apply Forall_app. split.
  - apply (bool_decide_unpack _). by vm_compute.
  - apply Forall_fmap, Forall_forall. intros i _.
    apply extra_col_without_other.
Qed.

Lemma foldM_merge_step df names :
  Forall (λ c, contains_str (py "other") c = false) names →
  foldM merge_step df names = Ok df.
Proof.
  induction 1 as [|c names Hc _ IH]; [done|].
  cbn [foldM].
  assert (Hstep : merge_step df c = Ok df)
    by (unfold merge_step; by rewrite Hc).
  by rewrite Hstep.
Qed.

Lemma set_columns_names_for df :
  set_columns df (names_for (length (table df)))
  = if decide (18 ≤ length (table df))%nat then Ok (renamed df)
    else Raise ValueError.
Proof.
  unfold set_columns. rewrite length_names_for.
  destruct (decide (18 ≤ length (table df))%nat) as [Hn|Hn].
  - rewrite bool_decide_eq_true_2 by lia.
    unfold renamed. by rewrite names_for_spec.
  - rewrite bool_decide_eq_false_2 by lia. done.
Qed.

Lemma load_data_frame svc data df :
  read_data svc data = Ok (BoundFrame df) →
  load_data svc data
  = if decide (18 ≤ length (table df))%nat then Ok (renamed df)
    else Raise ValueError.
Proof.
  intros Hread. unfold load_data. rewrite Hread.
  cbn [mbind result_bind]. rewrite set_columns_names_for.
  destruct (decide _) as [Hn|Hn]; [|done].
  cbn [mbind result_bind]. apply foldM_merge_step.
  unfold renamed. cbn [table].
  rewrite fst_zip.
  - rewrite <-names_for_spec. apply names_without_other.
  - rewrite length_app, length_map, length_seq, length_map.
    change (length column_names) with 18%nat. lia.
Qed.

(** Lines 39 to 105: [load_data] returns exactly when its argument is a
    path that ends with ["xlsx"] or ["csv"], pandas reads a frame from it
    and the frame has at least 18 columns (a frame as argument leaves
    [df_responses] unbound, another path leaves it a string, fewer
    columns do not take the 18 names).  The frame that is returned is
    the one that was read with its columns renamed to the 18 names
    followed by [extra_col_0], [extra_col_1], ...: none of these names
    holds ["other"], so that no column is merged or dropped. *)
Theorem load_data_returns (svc : Services) (data : pydata)
  (df' : DataFrame) :
  load_data svc data = Ok df'
  ↔ ∃ path df,
      data = DataPath path
      ∧ ((last_chars 4 path = py "xlsx" ∧ read_excel svc path = Ok df)
         ∨ (last_chars 4 path ≠ py "xlsx" ∧ last_chars 3 path = py "csv"
            ∧ read_csv svc path = Ok df))
      ∧ (18 ≤ length (table df))%nat
      ∧ df' = renamed df.
Proof.
  split.
  - intros Hload.
    destruct (read_data svc data) as [[| |df]|e] eqn:Hread;
      try (unfold load_data in Hload; by rewrite Hread in Hload).
    rewrite (load_data_frame _ _ _ Hread) in Hload.
    destruct (decide _) as [Hn|Hn]; [|done]. injection Hload as <-.
    destruct data as [path|df0]; [|done]. exists path, df.
    split; [done|]. split; [|done].
    unfold read_data in Hread.
    destruct (bool_decide_reflect (last_chars 4 path = py "xlsx")) as [Hx|Hx].
    + left. split; [done|].
      destruct (read_excel svc path) as [d|e]; simpl in Hread; [|done].
      by injection Hread as <-.
    + destruct (bool_decide_reflect (last_chars 3 path = py "csv"))
        as [Hc|Hc]; [|done].
      right. split; [done|]. split; [done|].
      destruct (read_csv svc path) as [d|e]; simpl in Hread; [|done].
      by injection Hread as <-.
  - intros (path & df & -> & Hread & Hn & ->).
    rewrite (load_data_frame _ _ df); [by rewrite decide_True|].
    unfold read_data.
    destruct Hread as [[Hx ->]|(Hx & Hc & ->)].
    + by rewrite bool_decide_eq_true_2.
    + by rewrite bool_decide_eq_false_2, bool_decide_eq_true_2.
Qed.

Lemma load_data_returns_witness :
  ∃ path df,
    DataPath (py "data.csv") = DataPath path
    ∧ ((last_chars 4 path = py "xlsx"
        ∧ read_excel ExampleData.services path = Ok df)
       ∨ (last_chars 4 path ≠ py "xlsx" ∧ last_chars 3 path = py "csv"
          ∧ read_csv ExampleData.services path = Ok df))
    ∧ (18 ≤ length (table df))%nat
    ∧ renamed (ExampleData.frame 20) = renamed df.
Proof.
  apply (load_data_returns ExampleData.services (DataPath (py "data.csv"))
           (renamed (ExampleData.frame 20))).
  vm_compute. reflexivity.
Defined.

(** ** [prepare_data] *)

Lemma dict_lookup_elem_of {V} (l : list (str * V)) (c : str) :
  c ∈ l.*1 → ∃ v, dict_lookup l c = Some v ∧ (c, v) ∈ l.
Proof.
  intros ([c' v] & Hc & Hin)%list_elem_of_fmap. simpl in Hc. subst c'.
  destruct (list_find_elem_of (λ kv : str * V, kv.1 = c) l (c, v))
    as [[j [c'' v']] Hfind]; [done..|].
  unfold dict_lookup. rewrite Hfind. simpl.
  apply list_find_Some in Hfind as (Hj & Hc & _). simpl in Hc. subst c''.
  exists v'. split; [done|]. by eapply list_elem_of_lookup_2.
Qed.

Lemma spaced_words_join (w : str) (l : list str) :
  w ++ concat (map (λ s, 32 :: s) l) = join (py " ") (w :: l).
Proof.
  revert w. induction l as [|w' l IH]; intros w.
  - cbn [map concat join]. by rewrite app_nil_r.
  - change (join (py " ") (w :: w' :: l))
      with (w ++ 32 :: join (py " ") (w' :: l)).
    cbn [map concat app]. by rewrite IH.
Qed.

Lemma tail_of_spaced_words (l : list str) :
  drop 1 (concat (map (λ s, 32 :: s) l)) = join (py " ") l.
Proof.
  destruct l as [|w l]; [done|]. cbn [map concat app drop].
  apply spaced_words_join.
Qed.

Lemma row_strings_cons df c cols i v :
  loc df i c = Ok v →
  row_strings df (c :: cols) i
  = match v with
    | CellStr s => s :: row_strings df cols i
    | CellNaN | CellNumber _ => row_strings df cols i
    end.
Proof.
  unfold loc, row_strings. simpl.
  destruct (dict_lookup (table df) c) as [values|]; [|done]. simpl.
  destruct (values !! i) as [v'|]; [|done]. intros [= ->].
  by destruct v.
Qed.

Lemma text_of_row df cols i text :
  Forall (λ c, ∃ v, loc df i c = Ok v) cols →
  foldM (λ text c,
           v ← loc df i c;
           match v with
           | CellStr s => Ok (text ++ py " " ++ s)
           | CellNaN | CellNumber _ => Ok text
           end)
        text cols
  = Ok (text ++ concat (map (λ s, 32 :: s) (row_strings df cols i))).
Proof.
  intros Hcols. revert text.
  induction Hcols as [|c cols [v Hv] _ IH]; intros text.
  - cbn [foldM row_strings omap map concat]. by rewrite app_nil_r.
  - cbn [foldM]. rewrite Hv. cbn [mbind result_bind].
    rewrite (row_strings_cons _ _ _ _ _ Hv).
    destruct v as [s| |z]; cbn [mbind result_bind]; rewrite IH; [|done..].
    cbn [map concat]. change (py " ") with [32].
    by rewrite <-!app_assoc.
Qed.

Lemma row_text_spec df cols i :
  Forall (λ c, ∃ v, loc df i c = Ok v) cols →
  row_text df cols i = Ok (join (py " ") (row_strings df cols i)).
Proof.
  intros Hcols. unfold row_text. rewrite text_of_row by done.
  cbn [mbind result_bind app]. by rewrite tail_of_spaced_words.
Qed.

Lemma load_data_renamed svc data df :
  load_data svc data = Ok df →
  ∃ df0, df = renamed df0 ∧ (18 ≤ length (table df0))%nat.
Proof.
  intros Hload.
  destruct (read_data svc data) as [[| |df0]|e] eqn:Hread;
    try (unfold load_data in Hload; by rewrite Hread in Hload).
  rewrite (load_data_frame _ _ _ Hread) in Hload.
  destruct (decide _) as [Hn|Hn]; [|done]. injection Hload as <-.
  by exists df0.
Qed.

Lemma included_cols_known incl :
  Forall (λ c, c ∈ column_names) (included_cols incl).
Proof.
  apply (bool_decide_unpack _). by destruct incl; vm_compute.
Qed.

(** Lines 366 to 440: for a frame that [load_data] returns, with a value
    in every row of every column, the text of a respondent is the
    strings of the included columns joined by a blank (the empty string
    when there is none), and [prepare_data] is
    [clean_and_tokenize_texts] on these texts: all its responses are
    strings. *)
Theorem prepare_data_texts (E : Env) (svc : Services) (data : pydata)
  (input_language : str) (incl_mc_questions : bool)
  (min_freq min_word_len : pyarg) (sample_size : pynum)
  (df : DataFrame) :
  load_data svc data = Ok df →
  Forall (λ kv, length kv.2 = n_rows df) (table df) →
  prepare_data E svc data (Some input_language) incl_mc_questions
    min_freq min_word_len sample_size
  = clean_and_tokenize_texts E
      (Texts (map PyStr
                (map (λ i, join (py " ")
                             (row_strings df
                                (included_cols incl_mc_questions) i))
                     (seq 0 (n_rows df)))))
      (Some (default (lower E input_language)
               (lem_abbr_dict E !! lower E input_language)))
      min_freq min_word_len sample_size.
Proof.
  intros Hload Hrows. unfold prepare_data, resolve_language.
  cbn [mbind result_bind]. rewrite Hload. cbn [mbind result_bind].
  rewrite (mapM_Ok_Forall _
             (λ i, join (py " ")
                     (row_strings df (included_cols incl_mc_questions) i)));
    [done|].
  apply Forall_forall. intros i [_ Hi]%elem_of_seq.
  apply row_text_spec.
  destruct (load_data_renamed _ _ _ Hload) as (df0 & Hdf & Hn).
  eapply Forall_impl; [apply included_cols_known|].
  intros c Hc. simpl in Hc.
  assert (Hcol : c ∈ (table df).*1).
  { rewrite Hdf. unfold renamed. cbn [table]. rewrite fst_zip.
    - apply elem_of_app. by left.
    - rewrite length_app, length_map, length_seq, length_map.
      change (length column_names) with 18%nat. lia. }
  apply dict_lookup_elem_of in Hcol as (values & Hlook & Hin).
  rewrite Forall_forall in Hrows. specialize (Hrows _ Hin).
  simpl in Hrows.
  destruct (lookup_lt_is_Some_2 values i) as [v Hv]; [lia|].
  exists v. unfold loc. by rewrite Hlook, Hv.
Qed.

Lemma prepare_data_texts_witness :
  prepare_data Example.env ExampleData.services
    (DataPath (py "data.csv")) (Some (py "Klingon")) false
    (ArgInt 0) (ArgInt 0) (NumInt 1)
  = clean_and_tokenize_texts Example.env
      (Texts (map PyStr
                (map (λ i, join (py " ")
                             (row_strings (renamed (ExampleData.frame 20))
                                (included_cols false) i))
                     (seq 0 (n_rows (renamed (ExampleData.frame 20)))))))
      (Some (default (lower Example.env (py "Klingon"))
               (lem_abbr_dict Example.env
                  !! lower Example.env (py "Klingon"))))
      (ArgInt 0) (ArgInt 0) (NumInt 1).
Proof.
  apply (prepare_data_texts Example.env ExampleData.services
           (DataPath (py "data.csv")) (py "Klingon") false
           (ArgInt 0) (ArgInt 0) (NumInt 1)
           (renamed (ExampleData.frame 20))).
  - vm_compute. reflexivity.
  - apply (bool_decide_unpack _). by vm_compute.
Defined.

(** ** [_prepare_corpus_path] *)

Lemma combine_words (w : str) (tokens : list str) :
  combine_tokens_to_str (TokensWords (w :: tokens)) IgnoreNone
  = Ok (join (py " ") (w :: tokens)).
Proof.
  unfold combine_tokens_to_str. cbn [mbind result_bind].
  by rewrite filter_Forall_id
    by (apply Forall_forall; intros ? _; apply not_elem_of_nil).
Qed.

Lemma combine_char (c : N) :
  combine_tokens_to_str (TokensStr [c]) IgnoreNone = Ok [c].
Proof. reflexivity. Qed.

Lemma clean_texts_of_tokens (E : Env) (l : list (list str)) :
  (Forall (λ t, t ≠ []) l
   ∧ mapM (λ t_c, s ← combine_tokens_to_str t_c IgnoreNone;
                  Ok (_clean_text_strings E s))
          (map TokensWords l)
     = Ok (map (λ t, _clean_text_strings E (join (py " ") t)) l))
  ∨ ([] ∈ l
     ∧ mapM (λ t_c, s ← combine_tokens_to_str t_c IgnoreNone;
                    Ok (_clean_text_strings E s))
            (map TokensWords l)
       = Raise IndexError).
Proof.
  induction l as [|t l IH]; [left; split; [constructor|done]|].
  cbn [map mapM]. destruct t as [|w t].
  - right. split; [apply list_elem_of_here|done].
  - rewrite combine_words. cbn [mbind result_bind].
    destruct IH as [[Hne ->]|[Hin ->]].
    + left. split; [by constructor|done].
    + right. split; [by apply list_elem_of_further|done].
Qed.

(** Lines 443 to 478: for a corpus of token lists without clean texts,
    the clean text of an entry is the normalisation of its tokens
    joined by blanks, one for each entry; an entry without tokens makes
    the call raise [IndexError]. *)
Theorem prepare_corpus_path_tokens (E : Env) (svc : Services)
  (l : list (list str)) (input_language : option str)
  (incl_mc_questions : bool) (min_freq min_word_len : pyarg)
  (sample_size : pynum) :
  (Forall (λ t, t ≠ []) l
   ∧ _prepare_corpus_path E svc (CorpusTokens l) None input_language
       incl_mc_questions min_freq min_word_len sample_size
     = Ok (CorpusTokens l,
           map (λ t, _clean_text_strings E (join (py " ") t)) l))
  ∨ ([] ∈ l
     ∧ _prepare_corpus_path E svc (CorpusTokens l) None input_language
         incl_mc_questions min_freq min_word_len sample_size
       = Raise IndexError).
Proof.
  unfold _prepare_corpus_path, corpus_items.
  destruct (clean_texts_of_tokens E l) as [[Hne ->]|[Hin ->]].
  - by left.
  - by right.
Qed.

Lemma clean_texts_of_chars (E : Env) (path : str) :
  mapM (λ t_c, s ← combine_tokens_to_str t_c IgnoreNone;
               Ok (_clean_text_strings E s))
       (map TokensStr (chars path))
  = Ok (map (λ c, _clean_text_strings E [c]) path).
Proof.
  induction path as [|c path IH]; [done|].
  cbn [chars map mapM]. rewrite combine_char. cbn [mbind result_bind].
  unfold chars in IH. by rewrite IH.
Qed.

(** Lines 455 to 478: for a corpus given as a string the call never
    raises.  When [prepare_data] returns, its corpus and clean texts
    are returned; when it raises, the exception is dropped and the
    string itself is returned, with the clean texts that were given or,
    without them, one clean text for each character of the string. *)
Theorem prepare_corpus_path_string (E : Env) (svc : Services)
  (path : str) (clean_texts : option (list str))
  (input_language : option str) (incl_mc_questions : bool)
  (min_freq min_word_len : pyarg) (sample_size : pynum) :
  _prepare_corpus_path E svc (CorpusPath path) clean_texts input_language
    incl_mc_questions min_freq min_word_len sample_size
  = match prepare_data E svc (DataPath path) input_language
            incl_mc_questions min_freq min_word_len sample_size with
    | Ok (text_corpus, texts, _) => Ok (CorpusTokens text_corpus, texts)
    | Raise _ =>
        Ok (CorpusPath path,
            match clean_texts with
            | Some texts => texts
            | None => map (λ c, _clean_text_strings E [c]) path
            end)
    end.
Proof.
  unfold _prepare_corpus_path.
  destruct (prepare_data _ _ _ _ _ _ _ _) as [[[tc ct] si]|e]; [done|].
  destruct clean_texts as [texts|]; [done|].
  unfold corpus_items. by rewrite clean_texts_of_chars.
Qed.

(** ** [translate_output] *)

Lemma length_chars (s : str) : length (chars s) = length s.
Proof. apply length_map. Qed.

(** Lines 481 to 505: [translate_output] raises [IndexError] for an
    empty list; when it returns, the translation has one entry for each
    entry of [outputs], a string for a string and a list of the same
    length for a list. *)
Theorem translate_output_shape (svc : Services) (outputs : list pyoutput)
  (input_language output_language : str) (translated : list pyoutput) :
  translate_output svc outputs input_language output_language
  = Ok translated →
  outputs ≠ [] ∧ Forall2 same_shape outputs translated.
Proof.
  destruct outputs as [|o outputs]; [done|].
  intros H. split; [done|]. unfold translate_output in H.
  destruct o as [s|l]; apply mapM_Ok_Forall2 in H;
    (eapply Forall2_impl; [exact H|]); clear H;
    intros o o' Ho; simpl in Ho.
  - destruct o as [s'|l']; [|done].
    apply bind_Ok in Ho as (t & _ & [= <-]). done.
  - apply bind_Ok in Ho as (l' & Hl' & [= <-]).
    apply mapM_Ok_length in Hl'.
    destruct o as [s'|l'']; simpl; [by rewrite <-length_chars|done].
Qed.

Lemma translate_output_shape_witness :
  [OutputList [py "good"; py "movie"]; OutputList [py "happy"]] ≠ []
  ∧ Forall2 same_shape
      [OutputList [py "good"; py "movie"]; OutputList [py "happy"]]
      [OutputList [py "good!"; py "movie!"]; OutputList [py "happy!"]].
Proof.
  apply (translate_output_shape ExampleData.services
           [OutputList [py "good"; py "movie"]; OutputList [py "happy"]]
           (py "en") (py "de")).
  vm_compute. reflexivity.
Defined.

(** ** [prompt_for_ignore_words] *)

Lemma prompt_loop_invalid (bad rest ignore out : list str) :
  Forall (λ a, a ≠ py "y" ∧ a ≠ py "n") bad →
  prompt_loop (bad ++ rest) ignore out
  = prompt_loop rest ignore
      (out ++ replicate (length bad) (py "Invalid input")).
Proof.
  intros Hbad. revert out.
  induction Hbad as [|a bad [Hy Hn] _ IH]; intros out.
  - by rewrite app_nil_r.
  - cbn [app prompt_loop length replicate].
    rewrite !bool_decide_eq_false_2 by done.
    by rewrite IH, <-app_assoc.
Qed.

(** Lines 574 to 609: every answer other than ["y"] and ["n"] prints
    ["Invalid input"] and asks again; ["n"] ends the loop with the list
    as it was (its apostrophes removed) and nothing added; ["y"] reads
    one more answer, adds its words and ends the loop; when the answers
    run out before that, [input] raises [EOFError]. *)
Theorem prompt_for_ignore_words_answers (ignore : option (list str))
  (bad rest : list str) (new_words : str) :
  Forall (λ a, a ≠ py "y" ∧ a ≠ py "n") bad →
  let cleaned := map (replace (py "'") []) (default [] ignore) in
  let invalid := replicate (length bad) (py "Invalid input") in
  prompt_for_ignore_words ignore (bad ++ py "n" :: rest)
  = Ok {| ignore_words := cleaned; words_added := false;
          printed := invalid; unread := rest |}
  ∧ prompt_for_ignore_words ignore (bad ++ py "y" :: new_words :: rest)
    = Ok {| ignore_words := cleaned ++ words_to_ignore new_words;
            words_added := true; printed := invalid; unread := rest |}
  ∧ prompt_for_ignore_words ignore bad = Raise EOFError
  ∧ prompt_for_ignore_words ignore (bad ++ [py "y"]) = Raise EOFError.
Proof.
  intros Hbad cleaned invalid. unfold prompt_for_ignore_words.
  fold cleaned. repeat split.
  - by rewrite prompt_loop_invalid.
  - by rewrite prompt_loop_invalid.
  - rewrite <-(app_nil_r bad). by rewrite prompt_loop_invalid.
  - by rewrite prompt_loop_invalid.
Qed.

Lemma prompt_for_ignore_words_answers_witness :
  let cleaned := map (replace (py "'") []) (default [] (Some [py "it's"])) in
  let invalid := replicate (length [py "maybe"]) (py "Invalid input") in
  prompt_for_ignore_words (Some [py "it's"])
    ([py "maybe"] ++ py "n" :: [py "later"])
  = Ok {| ignore_words := cleaned; words_added := false;
          printed := invalid; unread := [py "later"] |}
  ∧ prompt_for_ignore_words (Some [py "it's"])
      ([py "maybe"] ++ py "y" :: py "good, bad" :: [py "later"])
    = Ok {| ignore_words := cleaned ++ words_to_ignore (py "good, bad");
            words_added := true; printed := invalid;
            unread := [py "later"] |}
  ∧ prompt_for_ignore_words (Some [py "it's"]) [py "maybe"]
    = Raise EOFError
  ∧ prompt_for_ignore_words (Some [py "it's"]) ([py "maybe"] ++ [py "y"])
    = Raise EOFError.
Proof.
  apply (prompt_for_ignore_words_answers (Some [py "it's"]) [py "maybe"]
           [py "later"] (py "good, bad")).
  repeat constructor; discriminate.
Defined.

Lemma split_at_join sep cur s :
  join [sep] (split_at sep cur s) = reverse cur ++ s.
Proof.
  revert cur. induction s as [|c s IH]; intros cur; cbn [split_at].
  - cbn [join]. by rewrite app_nil_r.
  - destruct (N.eqb_spec c sep) as [->|Hne].
    + specialize (IH []).
      destruct (split_at sep [] s) as [|w ws] eqn:Hs.
      * by destruct s; cbn [split_at] in Hs;
          [|destruct (_ =? _)%N in Hs].
      * change (join [sep] (reverse cur :: w :: ws))
          with (reverse cur ++ sep :: join [sep] (w :: ws)).
        by rewrite IH.
    + rewrite IH, reverse_cons, <-app_assoc. done.
Qed.

Lemma split_at_chars (P : N → Prop) sep cur s :
  Forall P cur → Forall P s →
  Forall (λ c, c ≠ sep) cur →
  Forall (Forall (λ c, P c ∧ c ≠ sep)) (split_at sep cur s).
Proof.
  intros Hcur Hs. revert cur Hcur.
  induction Hs as [|c s Hc _ IH]; intros cur Hcur Hsep; cbn [split_at].
  - repeat constructor. apply Forall_reverse.
    apply Forall_and. done.
  - destruct (N.eqb_spec c sep) as [->|Hne].
    + constructor; [|by apply IH].
      apply Forall_reverse, Forall_and. done.
    + apply IH; by constructor.
Qed.

Lemma without_char (c : N) (s : str) :
  contains_str [c] s = false → Forall (λ d, d ≠ c) s.
Proof.
  induction s as [|d s IH]; [constructor|].
  cbn [contains_str startswith].
  assert (Hnil : startswith s [] = true) by (by destruct s).
  rewrite Hnil, andb_true_r.
  intros [Hd Hs]%orb_false_iff.
  constructor; [|by apply IH].
  intros ->. by rewrite N.eqb_refl in Hd.
Qed.

(** Lines 588 to 598: the words taken from an answer hold no comma, no
    apostrophe and no blank, and joined by blanks they give the answer
    without its commas and apostrophes. *)
Theorem words_to_ignore_spec (answer : str) :
  Forall (Forall (λ c, c ≠ 0x2C ∧ c ≠ 0x27 ∧ c ≠ 0x20))
         (words_to_ignore answer)
  ∧ join (py " ") (words_to_ignore answer)
    = filter (λ c, c ≠ 0x2C ∧ c ≠ 0x27) answer.
Proof.
  unfold words_to_ignore.
  set (new := filter (λ c, c ≠ 0x2C ∧ c ≠ 0x27) answer).
  assert (Hnew : Forall (λ c, c ≠ 0x2C ∧ c ≠ 0x27) new).
  { apply Forall_forall. by intros c [? _]%list_elem_of_filter. }
  destruct (contains_str (py " ") new) eqn:Hblank.
  - split; [|apply (split_at_join 32 [] new)].
    eapply Forall_impl;
      [apply (split_at_chars (λ c, c ≠ 0x2C ∧ c ≠ 0x27) 32 [] new);
       [constructor|exact Hnew|constructor]|].
    intros w Hw. eapply Forall_impl; [exact Hw|]. simpl. tauto.
  - split; [|done]. repeat constructor.
    apply (without_char 32) in Hblank.
    apply Forall_and in Hnew as [H1 H2].
    repeat (apply Forall_and; split); done.
Qed.

(** ** More about the first loops *)

Lemma startswith_app (s a b : str) :
  startswith s (a ++ b) = true → startswith s a = true.
Proof.
  revert s. induction a as [|c a IH]; intros s; [by destruct s|].
  destruct s as [|d s]; [done|]. cbn [app startswith].
  intros [-> ?]%andb_true_iff. by rewrite IH.
Qed.

Lemma contains_str_app (a b s : str) :
  contains_str (a ++ b) s = true → contains_str a s = true.
Proof.
  induction s as [|d s IH]; cbn [contains_str].
  - rewrite !orb_false_r. apply startswith_app.
  - intros [H|H]%orb_true_iff.
    + by rewrite (startswith_app _ _ _ H).
    + rewrite IH by done. apply orb_true_r.
Qed.

Lemma replace_same_char (c : N) (s : str) : replace [c] [c] s = s.
Proof.
  unfold replace. induction s as [|d s IH]; [done|].
  cbn [replace_from startswith length pred].
  assert (Hnil : startswith s [] = true) by (by destruct s).
  rewrite Hnil, andb_true_r.
  destruct (N.eqb_spec c d) as [->|Hne]; cbn [app]; by rewrite IH.
Qed.

(** Lines 195 to 205: a response without two blanks in a row leaves
    the loop over the run lengths as it entered it. *)
Theorem collapse_spaces_unchanged (s : str) :
  contains_str (py "  ") s = false → collapse_spaces s = s.
Proof.
  intros Hs. unfold collapse_spaces.
  assert (Hruns : Forall (λ i, 1 ≤ i)%nat space_run_lengths).
  { apply Forall_reverse, Forall_forall. by intros i [? _]%elem_of_seq. }
  induction Hruns as [|i l Hi _ IH]; [done|].
  cbn [foldl]. destruct i as [|[|i]]; [lia| |].
  - change (replicate 1 32) with [32]. change (py " ") with [32].
    rewrite replace_same_char.
    by destruct (contains_str [32] s).
  - destruct (contains_str (replicate (S (S i)) 32) s) eqn:Hrun; [|done].
    change (replicate (S (S i)) 32) with (py "  " ++ replicate i 32) in Hrun.
    apply contains_str_app in Hrun. congruence.
Qed.

Lemma collapse_spaces_unchanged_witness :
  collapse_spaces (py "a good movie") = py "a good movie".
Proof.
  apply (collapse_spaces_unchanged (py "a good movie")). reflexivity.
Defined.

(** Lines 250 to 261: the tokens of a response after the bigram step
    are the detected bigrams, the last one found first, followed by the
    tokens as they were; the tokens of the phrase model's output
    without an underscore are not used. *)
Theorem bigrams_in_reverse_order (E : Env) (tokenized : list (list str)) :
  tokens_with_bigrams E tokenized
  = map (λ tokens,
           reverse (filter (λ t, has_underscore t = true)
                           (Phrases E tokenized 3 float_5 tokens))
           ++ tokens)
        tokenized.
Proof.
  unfold tokens_with_bigrams. apply map_ext. intros tokens.
  apply insert_bigrams_spec.
Qed.

(** Lines 283 to 319: whichever of the lemmatizer, the stemmer and the
    unchanged tokens is used, the step returns one token list for each
    token list it is given, so that positions still name responses. *)
Theorem one_token_list_per_response (E : Env) (input_language : str)
  (tokens lemmatized : list (list str)) :
  lemmatized_tokens E input_language tokens = Ok lemmatized →
  length lemmatized = length tokens.
Proof. apply length_lemmatized_tokens. Qed.

Lemma one_token_list_per_response_witness :
  length [[py "happy"; py "customer"]]
  = length [[py "the"; py "happy"; py "customer"]].
Proof.
  apply (one_token_list_per_response Example.env (py "en")).
  vm_compute. reflexivity.
Defined.
